(** * calmhn: the story pipeline, the formatting helpers and the CVD preference

    A shallow embedding of the logic of the "Calm HN" single-page component:

    - [fetchTopStories]: the fetch flow and its filter / map / sort pipeline
      over the hits of the Algolia search API (App.tsx);
    - [formatTime] and [getDomain]: the two formatting helpers (App.tsx);
    - [handleCvdChange]: the colour-vision-deficiency toggle of the variant
      that shows a selector (App.tsx), and [startup], the initialisation of
      that preference in main.tsx.

    Conventions.  A JavaScript string is a [string], read as a sequence of
    code units in the Latin-1 range.  A JavaScript [number] is an integer or
    [NaN]: the numbers of this program are identifiers, scores, counts and
    epoch seconds, and the double-precision rounding of integers beyond 2^53
    is outside the model, as is the distinction of -0 from +0.  The
    fractions of [formatTime] are rationals, with the rounding of doubles as
    a parameter in [formatTime_fl].  A property
    that may be absent from an object is an [option], [None] being the value
    [undefined] that reading it gives. *)

From Stdlib Require Import ZArith QArith Qround Qabs Lqa String Ascii List Bool Lia.
From Stdlib Require Import Sorting.Sorted Sorting.Permutation.
From stdpp Require Import base option list gmap strings pretty.

Import ListNotations.
Local Open Scope string_scope.
Local Open Scope Z_scope.

(** ** JavaScript values *)

(** A JavaScript number, as far as this program computes with it. *)
Inductive number : Type :=
| Num (z : Z)
| NaN.

#[global] Instance number_eq_dec : EqDecision number.
Proof. solve_decision. Defined.

(** [ToBoolean] on a string that may be [undefined]. *)
Definition truthy_string (v : option string) : bool :=
  match v with
  | Some s => negb (String.eqb s "")
  | None => false
  end.

(** [ToBoolean] on an integer that may be [undefined]. *)
Definition truthy_int (v : option Z) : bool :=
  match v with
  | Some z => negb (z =? 0)
  | None => false
  end.

(** [ToNumber] on an integer that may be [undefined]. *)
Definition ToNumber (v : option Z) : number :=
  match v with
  | Some z => Num z
  | None => NaN
  end.

(** The binary [-] of JavaScript on two numbers. *)
Definition js_sub (a b : number) : number :=
  match a, b with
  | Num x, Num y => Num (x - y)
  | _, _ => NaN
  end.

(** ** [parseInt] with the radix left out *)

Module ParseInt.

(** [StrWhiteSpaceChar], within the Latin-1 range: TAB, LF, VT, FF, CR,
    SP and NBSP. *)
Definition is_white_space (c : ascii) : bool :=
  existsb (N.eqb (N_of_ascii c)) [9; 10; 11; 12; 13; 32; 160]%N.

Fixpoint trim_start (s : string) : string :=
  match s with
  | String c s' => if is_white_space c then trim_start s' else s
  | EmptyString => s
  end.

(** The value of a code unit as a digit: [0-9], then [a-z] or [A-Z] for
    ten to thirty-five. *)
Definition digit_value (c : ascii) : option Z :=
  let n := Z.of_N (N_of_ascii c) in
  if (48 <=? n) && (n <=? 57) then Some (n - 48)
  else if (97 <=? n) && (n <=? 122) then Some (n - 97 + 10)
  else if (65 <=? n) && (n <=? 90) then Some (n - 65 + 10)
  else None.

(** The digits of the longest prefix of [s] made of radix-[R] digits. *)
Fixpoint digits_prefix (R : Z) (s : string) : list Z :=
  match s with
  | String c s' =>
      match digit_value c with
      | Some d => if d <? R then d :: digits_prefix R s' else []
      | None => []
      end
  | EmptyString => []
  end.

Definition math_int (R : Z) (ds : list Z) : Z :=
  fold_left (fun acc d => acc * R + d) ds 0.

(** The sign of the input and what follows it. *)
Definition strip_sign (s : string) : Z * string :=
  match s with
  | String "-" r => (-1, r)
  | String "+" r => (1, r)
  | _ => (1, s)
  end.

(** The radix, sixteen after a ["0x"] or ["0X"] prefix and ten otherwise,
    and what follows the prefix. *)
Definition strip_prefix (s : string) : Z * string :=
  match s with
  | String "0" (String "x" r) => (16, r)
  | String "0" (String "X" r) => (16, r)
  | _ => (10, s)
  end.

(** The result is the integer that the digits spell.  The source holds it as
    a double: the same number up to 2^53 in magnitude, its rounding beyond. *)
Definition parseInt (input : string) : number :=
  let '(sign, s1) := strip_sign (trim_start input) in
  let '(R, s2) := strip_prefix s1 in
  match digits_prefix R s2 with
  | [] => NaN
  | ds => Num (sign * math_int R ds)
  end.

End ParseInt.

Export ParseInt.

(** ** The two record shapes *)

(** The record of the search API ([interface AlgoliaStory]).  [title] and
    [points] are declared mandatory but the pipeline guards against their
    absence, so they are optional here. *)
Module AlgoliaStory.
Record t : Type := mk {
  objectID : string;
  title : option string;
  url : option string;
  points : option Z;
  author : string;
  created_at_i : Z;
  num_comments : option Z
}.
End AlgoliaStory.

(** The record the component renders ([interface HNStory]).  The field [by]
    of the source is [by_] here, [by] being a reserved word. *)
Module HNStory.
Record t : Type := mk {
  id : number;
  title : option string;
  url : option string;
  score : option Z;
  by_ : string;
  time : Z;
  descendants : option Z
}.
End HNStory.

#[global] Instance HNStory_eq_dec : EqDecision HNStory.t.
Proof. solve_decision. Defined.

(** ** [Array.prototype.sort] *)

Section Sort.
Context {A : Type}.

(** [comparefn a b]: below zero puts [a] first, above zero puts [b]
    first.  [SortCompare] reads a [NaN] result as [+0]. *)
Variable comparefn : A -> A -> number.

Definition SortCompare (a b : A) : Z :=
  match comparefn a b with
  | Num v => v
  | NaN => 0
  end.

(** The specification leaves the algorithm to the engine and requires a
    stable sort; for a consistent comparator the result is the one of
    this stable insertion, which moves [x] only past the elements that
    must come strictly before it. *)
Fixpoint sort_insert (x : A) (l : list A) : list A :=
  match l with
  | [] => [x]
  | y :: l' =>
      if 0 <? SortCompare x y then y :: sort_insert x l'
      else x :: l
  end.

Fixpoint sort (l : list A) : list A :=
  match l with
  | [] => []
  | x :: l' => sort_insert x (sort l')
  end.

End Sort.

(** ** The story transformer (the pipeline of [fetchTopStories]) *)

(** [story => story.title && story.points] *)
Definition has_title_and_points (story : AlgoliaStory.t) : bool :=
  truthy_string (AlgoliaStory.title story) && truthy_int (AlgoliaStory.points story).

(** The object literal of the [map] callback. *)
Definition toHNStory (story : AlgoliaStory.t) : HNStory.t :=
  {| HNStory.id := parseInt (AlgoliaStory.objectID story);
     HNStory.title := AlgoliaStory.title story;
     HNStory.url := AlgoliaStory.url story;
     HNStory.score := AlgoliaStory.points story;
     HNStory.by_ := AlgoliaStory.author story;
     HNStory.time := AlgoliaStory.created_at_i story;
     HNStory.descendants := AlgoliaStory.num_comments story |}.

(** [(a, b) => b.score - a.score] *)
Definition by_score_desc (a b : HNStory.t) : number :=
  js_sub (ToNumber (HNStory.score b)) (ToNumber (HNStory.score a)).

(** [algoliaStories.filter(...).map(...).sort(...)] *)
Definition convertedStories (algoliaStories : list AlgoliaStory.t) : list HNStory.t :=
  sort by_score_desc (List.map toHNStory (List.filter has_title_and_points algoliaStories)).

(** ** The fetch flow of [fetchTopStories] *)

(** A value that reaches the [catch] clause: an [Error] with its message, or
    anything else. *)
Inductive thrown : Type :=
| ErrorObject (message : string)
| NotAnError.

(** What [response.json()] resolves to, as far as the flow looks at it:
    - [DataNull] is [null], on which reading [data.hits] throws a TypeError;
    - [DataWithoutHits] is any other value whose [hits] is not an array, so
      that the call of [.filter] throws a TypeError;
    - [DataHits] is a value whose [hits] is an array.  An entry [None] is a
      [null] entry, on which the [filter] callback throws a TypeError when
      it reads [story.title]; the other entries are taken to have fields of
      the declared types. *)
Inductive payload : Type :=
| DataNull
| DataWithoutHits
| DataHits (hits : list (option AlgoliaStory.t)).

Inductive json_outcome : Type :=
| JsonRejects (err : thrown)
| JsonResolves (data : payload).

(** What the network does: [fetch] rejects, or resolves to a response with
    its [ok] flag and the outcome that [response.json()] would have. *)
Inductive fetch_outcome : Type :=
| FetchRejects (err : thrown)
| FetchResolves (ok : bool) (body : json_outcome).

(** The three [useState] cells of the component. *)
Record AppState : Type := mkAppState {
  stories : list HNStory.t;
  loading : bool;
  error : option string
}.

Definition initialState : AppState :=
  {| stories := []; loading := true; error := None |}.

Definition setStories (v : list HNStory.t) (st : AppState) : AppState :=
  {| stories := v; loading := loading st; error := error st |}.

Definition setLoading (v : bool) (st : AppState) : AppState :=
  {| stories := stories st; loading := v; error := error st |}.

Definition setError (v : option string) (st : AppState) : AppState :=
  {| stories := stories st; loading := loading st; error := v |}.

Section FetchFlow.

(** The message the engine gives the TypeError that the pipeline throws on
    a payload of the wrong shape. *)
Variable TypeError_message : payload -> string.

(** The statements of the [try] block after the two setters: the thrown
    value, or the list handed to [setStories]. *)
Definition try_block (net : fetch_outcome) : thrown + list HNStory.t :=
  match net with
  | FetchRejects err => inl err
  | FetchResolves ok body =>
      if negb ok then inl (ErrorObject "Failed to fetch stories")
      else
        match body with
        | JsonRejects err => inl err
        | JsonResolves data =>
            match data with
            | DataHits hits =>
                if forallb (fun h => bool_decide (is_Some h)) hits
                then inr (convertedStories (omap id hits))
                else inl (ErrorObject (TypeError_message data))
            | _ => inl (ErrorObject (TypeError_message data))
            end
        end
  end.

(** [err instanceof Error ? err.message : 'Something went wrong'] *)
Definition error_text (err : thrown) : string :=
  match err with
  | ErrorObject message => message
  | NotAnError => "Something went wrong"
  end.

Definition fetchTopStories (net : fetch_outcome) (st : AppState) : AppState :=
  let st := setLoading true st in
  let st := setError None st in
  let st :=
    match try_block net with
    | inr converted => setStories converted st
    | inl err => setError (Some (error_text err)) st
    end in
  setLoading false st.

End FetchFlow.



(** ** [formatTime] *)

(** The template literal on an integer: [Number::toString], which below
    10^21 is the decimal numeral. *)
Definition NumberToString (z : Z) : string := pretty z.

(** [formatTime] in exact arithmetic.  [Date_now] is the value of
    [Date.now()], a whole number of milliseconds; [timestamp], [now] and
    [diff] are fractions.  The source computes in doubles: [formatTime_fl]
    below rounds each operation, and this definition is its instance with
    no rounding. *)
Definition formatTime (Date_now : Z) (timestamp : Q) : string :=
  let now : Q := (inject_Z Date_now / 1000)%Q in
  let diff : Q := (now - timestamp)%Q in
  let hours : Z := Qfloor (diff / 3600)%Q in
  if hours <? 1 then "just now"
  else if hours =? 1 then "1 hour ago"
  else if hours <? 24 then NumberToString hours +:+ " hours ago"
  else
    let days : Z := Qfloor (inject_Z hours / 24)%Q in
    if days =? 1 then "1 day ago"
    else NumberToString days +:+ " days ago".

(** [formatTime] in the arithmetic of doubles: [fl] rounds the exact result
    of each [/] and [-] to a double, as the operators of the language do;
    [Math.floor] is exact, and the counts it gives are whole numbers.
    [timestamp] is the value of a double. *)
Definition formatTime_fl (fl : Q -> Q) (Date_now : Z) (timestamp : Q) : string :=
  let now : Q := fl (inject_Z Date_now / 1000)%Q in
  let diff : Q := fl (now - timestamp)%Q in
  let hours : Z := Qfloor (fl (diff / 3600)%Q) in
  if hours <? 1 then "just now"
  else if hours =? 1 then "1 hour ago"
  else if hours <? 24 then NumberToString hours +:+ " hours ago"
  else
    let days : Z := Qfloor (fl (inject_Z hours / 24)%Q) in
    if days =? 1 then "1 day ago"
    else NumberToString days +:+ " days ago".

(** An instance of the rounding for the examples: the double nearest to a
    fraction, ties to the even one, with the gradual underflow of the
    format; magnitudes from 2^1024 on, which a double cannot hold, are not
    treated. *)
Module Binary64.

(** The [e] with [2^e <= a < 2^(e+1)], for a positive [a]. *)
Definition binade (a : Q) : Z :=
  let e0 := Z.log2 (Qnum a) - Z.log2 (Z.pos (Qden a)) in
  if Qle_bool (Qpower 2 e0) a then e0 else e0 - 1.

Definition round_nearest_even (m : Q) : Z :=
  let f := Qfloor m in
  match Qcompare (m - inject_Z f) (1 # 2) with
  | Lt => f
  | Gt => f + 1
  | Eq => if Z.even f then f else f + 1
  end.

Definition round (x : Q) : Q :=
  match Qnum x with
  | 0 => 0%Q
  | _ =>
      let a := Qabs x in
      let ulp := Qpower 2 (Z.max (binade a) (-1022) - 52) in
      let r := Qred (inject_Z (round_nearest_even (a / ulp)) * ulp) in
      if Qnum x <? 0 then Qopp r else r
  end.

End Binary64.

(** ** [getDomain] *)

(** [s.replace(searchValue, replaceValue)] with a string to search for: the
    first occurrence is replaced.  [replaceValue] holds no [$]. *)
Fixpoint replace (searchValue replaceValue s : string) : string :=
  if String.prefix searchValue s
  then replaceValue +:+ String.substring (String.length searchValue)
                          (String.length s - String.length searchValue) s
  else
    match s with
    | String c s' => String c (replace searchValue replaceValue s')
    | EmptyString => EmptyString
    end.

Section GetDomain.

(** [new URL(url).hostname]: the URL parser of the platform, [None] when
    the constructor throws. *)
Variable URL_hostname : string -> option string.

(** The result is [None] for [null]. *)
Definition getDomain (url : option string) : option string :=
  if negb (truthy_string url) then None
  else
    match url with
    | Some u =>
        match URL_hostname u with
        | Some hostname => Some (replace "www." "" hostname)
        | None => None
        end
    | None => None
    end.

End GetDomain.

(** An instance of the parser for the examples: the host of an [http] or
    [https] URL when it is made of labels of lower-case letters joined by
    dots; any other input is rejected.  On these URLs the platform's
    [hostname] is the host as written. *)
Module SimpleURL.

Definition is_lower (c : ascii) : bool :=
  let n := N_of_ascii c in (97 <=? n)%N && (n <=? 122)%N.

Definition is_delimiter (c : ascii) : bool :=
  existsb (Ascii.eqb c) ["/"; "?"; "#"]%char.

Fixpoint take_host (s : string) : string :=
  match s with
  | String c s' => if is_delimiter c then EmptyString else String c (take_host s')
  | EmptyString => EmptyString
  end.

(** [labels after_dot s]: [s] is made of non-empty labels of lower-case
    letters; [after_dot] tells that a label has to start here. *)
Fixpoint labels (after_dot : bool) (s : string) : bool :=
  match s with
  | String c s' =>
      if is_lower c then labels false s'
      else if Ascii.eqb c "." then negb after_dot && labels true s'
      else false
  | EmptyString => negb after_dot
  end.

Definition after_scheme (url : string) : option string :=
  if String.prefix "https://" url
  then Some (String.substring 8 (String.length url - 8) url)
  else if String.prefix "http://" url
  then Some (String.substring 7 (String.length url - 7) url)
  else None.

Definition hostname (url : string) : option string :=
  match after_scheme url with
  | Some rest =>
      let host := take_host rest in
      if labels true host then Some host else None
  | None => None
  end.

End SimpleURL.

(** ** The CVD preference *)

(** The two stores the preference lives in: the attributes of
    [document.body] and [localStorage]. *)
Record Browser : Type := mkBrowser {
  body_attributes : gmap string string;
  localStorage : gmap string string
}.

Definition setAttribute (name value : string) (b : Browser) : Browser :=
  {| body_attributes := <[name := value]> (body_attributes b);
     localStorage := localStorage b |}.

Definition removeAttribute (name : string) (b : Browser) : Browser :=
  {| body_attributes := delete name (body_attributes b);
     localStorage := localStorage b |}.

Definition setItem (key value : string) (b : Browser) : Browser :=
  {| body_attributes := body_attributes b;
     localStorage := <[key := value]> (localStorage b) |}.

Definition removeItem (key : string) (b : Browser) : Browser :=
  {| body_attributes := body_attributes b;
     localStorage := delete key (localStorage b) |}.

Definition getItem (key : string) (b : Browser) : option string :=
  localStorage b !! key.

(** [URLSearchParams.get]: the value of the first pair with that name. *)
Definition URLSearchParams_get (name : string) (params : list (string * string))
  : option string :=
  snd <$> List.find (fun p => String.eqb (fst p) name) params.

Definition is_cvd_mode (v : string) : bool :=
  String.eqb v "protanopia" || String.eqb v "deuteranopia".

(** The statements of main.tsx before the render; [params] is the query
    string as [URLSearchParams] holds it. *)
Definition startup (params : list (string * string)) (b : Browser) : Browser :=
  let cvdParam := URLSearchParams_get "cvd" params in
  let otherwise :=
    match getItem "cvd-preference" b with
    | Some stored =>
        if is_cvd_mode stored then setAttribute "data-cvd" stored b else b
    | None => b
    end in
  match cvdParam with
  | Some v =>
      if is_cvd_mode v
      then setItem "cvd-preference" v (setAttribute "data-cvd" v b)
      else otherwise
  | None => otherwise
  end.

(** The component with the selector: its [cvdMode] cell and the browser. *)
Record CvdState : Type := mkCvdState {
  cvdMode : option string;
  browser : Browser
}.

(** [useState(localStorage.getItem('cvd-preference'))] *)
Definition initialCvdState (b : Browser) : CvdState :=
  {| cvdMode := getItem "cvd-preference" b; browser := b |}.

Definition handleCvdChange (mode : option string) (st : CvdState) : CvdState :=
  let b := browser st in
  {| cvdMode := mode;
     browser :=
       match mode with
       | Some m =>
           if truthy_string mode
           then setItem "cvd-preference" m (setAttribute "data-cvd" m b)
           else removeItem "cvd-preference" (removeAttribute "data-cvd" b)
       | None => removeItem "cvd-preference" (removeAttribute "data-cvd" b)
       end |}.

(** [onChange] of the selector: [handleCvdChange(e.target.value || null)]. *)
Definition onChange (value : string) (st : CvdState) : CvdState :=
  handleCvdChange (if truthy_string (Some value) then Some value else None) st.

(** ** The request of [fetchTopStories] *)

(** [Math.floor(Date.now() / 1000) - (90 * 24 * 60 * 60)] *)
Definition threeMonthsAgo (Date_now : Z) : Z :=
  Qfloor (inject_Z Date_now / 1000)%Q - 90 * 24 * 60 * 60.

(** The template literal handed to [fetch]. *)
Definition request_url (Date_now : Z) : string :=
  "https://hn.algolia.com/api/v1/search?tags=story&numericFilters=created_at_i>"
  +:+ NumberToString (threeMonthsAgo Date_now) +:+ "&hitsPerPage=30".

(** ** The entries of the list *)

(** [Number::toString] on a number, an integer below 10^21 in magnitude or
    [NaN]. *)
Definition ToString (n : number) : string :=
  match n with
  | Num z => NumberToString z
  | NaN => "NaN"
  end.

(** [`https://news.ycombinator.com/item?id=${story.id}`] *)
Definition discussion_url (id : number) : string :=
  "https://news.ycombinator.com/item?id=" +:+ ToString id.

(** What one entry of the list shows for a story: the rank badge, the
    target and the text of the title link, whether the external-link glyph
    is drawn, the score, the comments link with its count when
    [descendants] is not [undefined], the relative time, and the domain
    when [getDomain] gives a truthy result. *)
Record StoryItem : Type := mkStoryItem {
  rank : Z;
  href : string;
  link_text : option string;
  external_link : bool;
  shown_score : option Z;
  comments_link : option (string * Z);
  time_text : string;
  shown_domain : option string
}.

Section Entries.

Variable URL_hostname : string -> option string.
Variable Date_now : Z.

(** The body of [stories.map((story, index) => ...)]. *)
Definition story_item (index : nat) (story : HNStory.t) : StoryItem :=
  {| rank := Z.of_nat index + 1;
     href :=
       match HNStory.url story with
       | Some u =>
           if truthy_string (HNStory.url story) then u
           else discussion_url (HNStory.id story)
       | None => discussion_url (HNStory.id story)
       end;
     link_text := HNStory.title story;
     external_link := truthy_string (HNStory.url story);
     shown_score := HNStory.score story;
     comments_link :=
       match HNStory.descendants story with
       | Some count => Some (discussion_url (HNStory.id story), count)
       | None => None
       end;
     time_text := formatTime Date_now (inject_Z (HNStory.time story));
     shown_domain :=
       if truthy_string (getDomain URL_hostname (HNStory.url story))
       then getDomain URL_hostname (HNStory.url story)
       else None |}.

Definition story_items (l : list HNStory.t) : list StoryItem :=
  imap story_item l.

End Entries.

(** [value={cvdMode || ''}] of the selector. *)
Definition select_value (st : CvdState) : string :=
  match cvdMode st with
  | Some m => if truthy_string (cvdMode st) then m else ""
  | None => ""
  end.

(** * The vocabulary of the properties *)

(** [desc key]: descending order of an integer key; [has_key key k]: the
    elements of key [k]. *)
Definition desc {A : Type} (key : A -> Z) (a b : A) : Prop := key b <= key a.

Definition has_key {A : Type} (key : A -> Z) (k : Z) (a : A) : bool := key a =? k.

Definition score_key (d : HNStory.t) : Z :=
  match HNStory.score d with
  | Some z => z
  | None => 0
  end.

Definition scored (d : HNStory.t) : Prop := is_Some (HNStory.score d).

(** [a] may stand before [b]: both scores are there and [b]'s is not the
    larger. *)
Definition score_ge (a b : HNStory.t) : Prop :=
  exists x y, HNStory.score a = Some x /\ HNStory.score b = Some y /\ y <= x.

Definition has_score (k : Z) (d : HNStory.t) : bool :=
  bool_decide (HNStory.score d = Some k).

Definition has_points (k : Z) (story : AlgoliaStory.t) : bool :=
  bool_decide (AlgoliaStory.points story = Some k).

(** A record with a title and a negative score. *)
Definition downvoted : AlgoliaStory.t :=
  {| AlgoliaStory.objectID := "41000001";
     AlgoliaStory.title := Some "Show HN: a calm reader";
     AlgoliaStory.url := None;
     AlgoliaStory.points := Some (-1);
     AlgoliaStory.author := "pg";
     AlgoliaStory.created_at_i := 1700000000;
     AlgoliaStory.num_comments := Some 0 |}.

(** A record whose identifier does not start with a digit. *)
Definition unnumbered : AlgoliaStory.t :=
  {| AlgoliaStory.objectID := "story-17";
     AlgoliaStory.title := Some "Ask HN: what are you reading?";
     AlgoliaStory.url := Some "https://news.example.org/reading";
     AlgoliaStory.points := Some 12;
     AlgoliaStory.author := "dang";
     AlgoliaStory.created_at_i := 1700000000;
     AlgoliaStory.num_comments := None |}.

(** The time since [timestamp], in seconds. *)
Definition elapsed (Date_now : Z) (timestamp : Q) : Q :=
  (inject_Z Date_now / 1000 - timestamp)%Q.

(** What the branches of [formatTime] give for [N] whole hours. *)
Definition text_for_hours (N : Z) : string :=
  if N <? 1 then "just now"
  else if N =? 1 then "1 hour ago"
  else if N <? 24 then NumberToString N +:+ " hours ago"
  else if N <? 48 then "1 day ago"
  else NumberToString (N / 24) +:+ " days ago".


(** The query parameter is not one of the two modes. *)
Definition no_mode_in (cvdParam : option string) : Prop :=
  forall v, cvdParam = Some v -> v <> "protanopia" /\ v <> "deuteranopia".

(** A page that was opened before with the other mode. *)
Definition returning_visitor : Browser :=
  {| body_attributes := ∅;
     localStorage := {[ "cvd-preference" := "deuteranopia" ]} |}.

(** What the properties use of the rounding of doubles (binary64, to
    nearest, ties to even), all of it standard: rounding respects equality
    of fractions and order; an integer up to 2^53 in magnitude is a double;
    between 2^-30 and 2^53 the relative error is at most 2^-53; and a
    double up to 2^53 less a smaller non-negative integer is a double
    again. *)
Record Rounding (fl : Q -> Q) : Prop := {
  fl_proper : forall x y : Q, (x == y)%Q -> (fl x == fl y)%Q;
  fl_monotone : forall x y : Q, (x <= y)%Q -> (fl x <= fl y)%Q;
  fl_integer : forall n : Z,
    Z.abs n <= 2 ^ 53 -> (fl (inject_Z n) == inject_Z n)%Q;
  fl_error : forall x : Q,
    (1 # 1073741824 <= x)%Q -> (x <= 9007199254740992)%Q ->
    (x - x * (1 # 9007199254740992) <= fl x)%Q
    /\ (fl x <= x + x * (1 # 9007199254740992))%Q;
  fl_sub_integer : forall (x : Q) (c : Z),
    0 <= c -> (inject_Z c <= fl x)%Q -> (fl x <= 9007199254740992)%Q ->
    (fl (fl x - inject_Z c) == fl x - inject_Z c)%Q
}.

(** [occurs pat s]: [pat] stands somewhere in [s]. *)
Fixpoint occurs (pat s : string) : bool :=
  String.prefix pat s
  || match s with
     | String _ s' => occurs pat s'
     | EmptyString => false
     end.

(** * Properties *)

(** ** The sort *)

Section SortFacts.
Context {A : Type}.
Variable comparefn : A -> A -> number.

(** The comparator is the difference of an integer key, taken in
    descending order, on the elements that satisfy [dom]. *)
Variable dom : A -> Prop.
Variable key : A -> Z.
Hypothesis compare_key :
  forall a b, dom a -> dom b -> SortCompare comparefn a b = key b - key a.

Lemma sort_insert_perm x l : Permutation (sort_insert comparefn x l) (x :: l).
Proof.
  induction l as [|y l IH]; simpl; [reflexivity|].
  destruct (0 <? SortCompare comparefn x y); [|reflexivity].
  rewrite IH. apply perm_swap.
Qed.

Lemma sort_perm l : Permutation (sort comparefn l) l.
Proof.
  induction l as [|x l IH]; simpl; [reflexivity|].
  rewrite sort_insert_perm. now constructor.
Qed.

Lemma sort_dom l : List.Forall dom l -> List.Forall dom (sort comparefn l).
Proof.
  intros H. eapply Permutation_Forall; [|exact H].
  symmetry. apply sort_perm.
Qed.

Lemma sort_insert_sorted x l :
  dom x -> List.Forall dom l ->
  StronglySorted (desc key) l -> StronglySorted (desc key) (sort_insert comparefn x l).
Proof.
  intros Hx Hl Hs. induction Hs as [|y l Hs IH Hy]; simpl.
  - repeat constructor.
  - inversion Hl as [|? ? Hdy Hdl]; subst.
    rewrite (compare_key x y Hx Hdy).
    destruct (Z.ltb_spec 0 (key y - key x)) as [Hlt|Hge].
    + constructor; [now apply IH|].
      eapply Permutation_Forall; [symmetry; apply sort_insert_perm|].
      constructor; [unfold desc; lia | exact Hy].
    + constructor; [now constructor|].
      constructor; [unfold desc; lia|].
      eapply List.Forall_impl; [|exact Hy].
      unfold desc. intros a Ha. lia.
Qed.

Lemma sort_sorted l :
  List.Forall dom l -> StronglySorted (desc key) (sort comparefn l).
Proof.
  induction 1 as [|x l Hx Hl IH]; simpl; [constructor|].
  apply sort_insert_sorted; auto using sort_dom.
Qed.

(** Insertion never moves [x] past an element of the same key. *)
Lemma sort_insert_filter k x l :
  dom x -> List.Forall dom l ->
  List.filter (has_key key k) (sort_insert comparefn x l)
  = List.filter (has_key key k) (x :: l).
Proof.
  intros Hx Hl. induction Hl as [|y l Hy Hl IH]; [reflexivity|].
  cbn [sort_insert]. rewrite (compare_key x y Hx Hy).
  destruct (Z.ltb_spec 0 (key y - key x)) as [Hlt|Hge]; [|reflexivity].
  cbn [List.filter] in *. rewrite IH. unfold has_key.
  destruct (Z.eqb_spec (key x) k), (Z.eqb_spec (key y) k); try reflexivity; lia.
Qed.

(** Stability: the elements of one key come out in the order they went in. *)
Lemma sort_stable k l :
  List.Forall dom l ->
  List.filter (has_key key k) (sort comparefn l) = List.filter (has_key key k) l.
Proof.
  induction 1 as [|x l Hx Hl IH]; [reflexivity|].
  cbn [sort]. rewrite sort_insert_filter by auto using sort_dom.
  cbn [List.filter]. now rewrite IH.
Qed.

(** Two descending lists with the same elements of every key, in the same
    order, are equal: what a stable sort returns does not depend on the
    algorithm. *)
Lemma sorted_stable_unique l1 l2 :
  StronglySorted (desc key) l1 -> StronglySorted (desc key) l2 ->
  (forall k, List.filter (has_key key k) l1 = List.filter (has_key key k) l2) ->
  l1 = l2.
Proof.
  intros H1. revert l2. induction H1 as [|x l1 H1 IH Hx]; intros l2 H2 Heq.
  - destruct l2 as [|y l2]; [reflexivity|].
    specialize (Heq (key y)). cbn in Heq. unfold has_key in Heq at 1.
    rewrite Z.eqb_refl in Heq. discriminate.
  - destruct l2 as [|y l2].
    { specialize (Heq (key x)). cbn in Heq. unfold has_key in Heq at 1.
      rewrite Z.eqb_refl in Heq. discriminate. }
    inversion H2 as [|? ? H2' Hy]; subst.
    assert (Hxy : key x = key y).
    { assert (Hin1 : In x (y :: l2)).
      { pose proof (Heq (key x)) as E. cbn [List.filter] in E.
        unfold has_key in E at 1. rewrite Z.eqb_refl in E.
        assert (Hi : In x (List.filter (has_key key (key x)) (y :: l2))).
        { cbn [List.filter]. rewrite <- E. now left. }
        apply filter_In in Hi. tauto. }
      assert (Hin2 : In y (x :: l1)).
      { pose proof (Heq (key y)) as E.
        assert (Hi : In y (List.filter (has_key key (key y)) (x :: l1))).
        { rewrite E. cbn [List.filter]. unfold has_key at 1.
          rewrite Z.eqb_refl. now left. }
        apply filter_In in Hi. tauto. }
      rewrite List.Forall_forall in Hx, Hy. unfold desc in Hx, Hy.
      destruct Hin1 as [->|Hin1]; [reflexivity|].
      destruct Hin2 as [->|Hin2]; [reflexivity|].
      specialize (Hx _ Hin2). specialize (Hy _ Hin1). lia. }
    assert (x = y) as ->.
    { specialize (Heq (key x)). cbn [List.filter] in Heq.
      assert (Ex : has_key key (key x) x = true) by apply Z.eqb_refl.
      assert (Ey : has_key key (key x) y = true)
        by (unfold has_key; rewrite Hxy; apply Z.eqb_refl).
      rewrite Ex, Ey in Heq. congruence. }
    f_equal. apply IH; [exact H2'|].
    intros k. specialize (Heq k). cbn [List.filter] in Heq.
    destruct (has_key key k y); congruence.
Qed.

End SortFacts.

(** ** The story transformer *)

Lemma by_score_desc_key a b :
  scored a -> scored b ->
  SortCompare by_score_desc a b = score_key b - score_key a.
Proof.
  unfold scored, SortCompare, by_score_desc, score_key.
  intros [x ->] [y ->]. reflexivity.
Qed.

Lemma has_title_and_points_true story :
  has_title_and_points story = true <->
  (exists t, AlgoliaStory.title story = Some t /\ t <> "") /\
  (exists p, AlgoliaStory.points story = Some p /\ p <> 0).
Proof.
  unfold has_title_and_points, truthy_string, truthy_int.
  rewrite andb_true_iff. split.
  - intros [Ht Hp]. split.
    + destruct (AlgoliaStory.title story) as [t|]; [|discriminate].
      exists t. split; [reflexivity|]. intros ->. discriminate.
    + destruct (AlgoliaStory.points story) as [p|]; [|discriminate].
      exists p. split; [reflexivity|]. intros ->. discriminate.
  - intros [(t & -> & Ht) (p & -> & Hp)]. split.
    + destruct (String.eqb_spec t ""); [contradiction|reflexivity].
    + destruct (Z.eqb_spec p 0); [contradiction|reflexivity].
Qed.

Lemma has_title_and_points_false story :
  has_title_and_points story = false <->
  AlgoliaStory.title story = None \/ AlgoliaStory.title story = Some "" \/
  AlgoliaStory.points story = None \/ AlgoliaStory.points story = Some 0.
Proof.
  unfold has_title_and_points, truthy_string, truthy_int.
  rewrite andb_false_iff.
  destruct (AlgoliaStory.title story) as [t|], (AlgoliaStory.points story) as [p|];
    try destruct (String.eqb_spec t ""); try destruct (Z.eqb_spec p 0);
    subst; cbn; intuition congruence.
Qed.

Lemma retained_scored hits :
  List.Forall scored (List.map toHNStory (List.filter has_title_and_points hits)).
Proof.
  rewrite List.Forall_map, List.Forall_forall. intros story Hin.
  apply filter_In in Hin as [_ Hk].
  apply has_title_and_points_true in Hk as [_ (p & Hp & _)].
  unfold scored. cbn. rewrite Hp. eauto.
Qed.

Lemma convertedStories_perm hits :
  Permutation (convertedStories hits)
              (List.map toHNStory (List.filter has_title_and_points hits)).
Proof. apply sort_perm. Qed.

Lemma convertedStories_In hits d :
  In d (convertedStories hits) <->
  exists story, In story hits /\ has_title_and_points story = true /\ d = toHNStory story.
Proof.
  split.
  - intros Hin. apply (Permutation_in _ (convertedStories_perm hits)) in Hin.
    apply in_map_iff in Hin as (story & <- & Hin).
    apply filter_In in Hin. exists story. tauto.
  - intros (story & Hin & Hk & ->).
    apply (Permutation_in _ (Permutation_sym (convertedStories_perm hits))).
    apply in_map. apply filter_In. tauto.
Qed.

Lemma convertedStories_scored hits : List.Forall scored (convertedStories hits).
Proof. apply sort_dom, retained_scored. Qed.

Lemma StronglySorted_impl_on {A} (P : A -> Prop) (R R' : A -> A -> Prop) l :
  (forall a b, P a -> P b -> R a b -> R' a b) ->
  List.Forall P l -> StronglySorted R l -> StronglySorted R' l.
Proof.
  intros HR HP Hs. induction Hs as [|x l Hs IH Hx]; [constructor|].
  inversion HP as [|? ? Px Pl]; subst. constructor; [auto|].
  rewrite List.Forall_forall in *. eauto.
Qed.

Lemma filter_map_comm {A B} (f : A -> B) (p : B -> bool) l :
  List.filter p (List.map f l) = List.map f (List.filter (fun a => p (f a)) l).
Proof.
  induction l as [|a l IH]; [reflexivity|]. cbn.
  destruct (p (f a)); cbn; now rewrite IH.
Qed.

Lemma filter_filter {A} (p q : A -> bool) l :
  List.filter p (List.filter q l) = List.filter (fun a => q a && p a) l.
Proof.
  induction l as [|a l IH]; [reflexivity|]. cbn.
  destruct (q a); cbn; [destruct (p a)|]; now rewrite IH.
Qed.

Lemma has_score_key k d : scored d -> has_score k d = has_key score_key k d.
Proof.
  unfold scored, has_score, has_key, score_key. intros [z ->].
  destruct (Z.eqb_spec z k) as [->|Hne].
  - now apply bool_decide_eq_true.
  - apply bool_decide_eq_false. congruence.
Qed.

Lemma filter_has_score k l :
  List.Forall scored l ->
  List.filter (has_score k) l = List.filter (has_key score_key k) l.
Proof.
  intros H. apply filter_ext_in. intros d Hd.
  apply has_score_key. rewrite List.Forall_forall in H. auto.
Qed.

(** C1: the transformer's output is, up to order, the image under
    [toHNStory] of the records that pass the filter; a record fails the
    filter exactly when its title is missing or empty or its points are
    missing or zero; and [toHNStory] copies title, url, points, author,
    created_at_i and num_comments and parses objectID with [parseInt]. *)
Theorem transformer_filters_and_maps (hits : list AlgoliaStory.t) :
  Permutation (convertedStories hits)
              (List.map toHNStory (List.filter has_title_and_points hits))
  /\ (forall story,
        has_title_and_points story = false <->
        AlgoliaStory.title story = None \/ AlgoliaStory.title story = Some "" \/
        AlgoliaStory.points story = None \/ AlgoliaStory.points story = Some 0)
  /\ (forall story,
        HNStory.title (toHNStory story) = AlgoliaStory.title story /\
        HNStory.url (toHNStory story) = AlgoliaStory.url story /\
        HNStory.score (toHNStory story) = AlgoliaStory.points story /\
        HNStory.by_ (toHNStory story) = AlgoliaStory.author story /\
        HNStory.time (toHNStory story) = AlgoliaStory.created_at_i story /\
        HNStory.descendants (toHNStory story) = AlgoliaStory.num_comments story /\
        HNStory.id (toHNStory story) = parseInt (AlgoliaStory.objectID story)).
Proof.
  split; [apply convertedStories_perm|].
  split; [apply has_title_and_points_false|].
  intros story. repeat split.
Qed.

(** C2: the transformer's output is sorted by score, largest first, and
    for every score the records of that score stand in the order in which
    the hit list had them. *)
Theorem convertedStories_sorted_stable (hits : list AlgoliaStory.t) :
  StronglySorted score_ge (convertedStories hits)
  /\ (forall k,
        List.filter (has_score k) (convertedStories hits)
        = List.map toHNStory
            (List.filter (fun story => has_title_and_points story && has_points k story)
                         hits)).
Proof.
  split.
  - apply (StronglySorted_impl_on scored (desc score_key)).
    + unfold scored, desc, score_ge, score_key.
      intros a b [x Hx] [y Hy]. rewrite Hx, Hy. eauto.
    + apply convertedStories_scored.
    + apply (sort_sorted _ scored score_key by_score_desc_key), retained_scored.
  - intros k. rewrite filter_has_score by apply convertedStories_scored.
    unfold convertedStories.
    rewrite (sort_stable _ scored score_key by_score_desc_key) by apply retained_scored.
    rewrite <- filter_has_score by apply retained_scored.
    rewrite filter_map_comm, filter_filter. reflexivity.
Qed.

(** The sorted list is the only arrangement of the retained records that is
    descending and stable. *)
Lemma convertedStories_unique hits l :
  List.Forall scored l ->
  StronglySorted score_ge l ->
  (forall k, List.filter (has_score k) l
             = List.filter (has_score k)
                 (List.map toHNStory (List.filter has_title_and_points hits))) ->
  l = convertedStories hits.
Proof.
  intros Hl Hs Hst. apply (sorted_stable_unique score_key).
  - apply (StronglySorted_impl_on scored score_ge); auto.
    unfold desc, score_ge, score_key. intros a b _ _ (x & y & -> & -> & H). exact H.
  - apply (sort_sorted _ scored score_key by_score_desc_key), retained_scored.
  - intros k. rewrite <- (filter_has_score k l Hl), Hst.
    rewrite (filter_has_score k _ (retained_scored hits)).
    unfold convertedStories. symmetry. apply (sort_stable _ scored score_key by_score_desc_key), retained_scored.
Qed.

(** *** Scores of the output *)

(** C3, as stated, fails: the filter tests the truthiness of the points, so
    a record with a negative score is kept, and the output holds a story
    whose score is not positive. *)
Lemma negative_score_retained :
  convertedStories [downvoted] = [toHNStory downvoted]
  /\ HNStory.score (toHNStory downvoted) = Some (-1)
  /\ ~ (forall d, In d (convertedStories [downvoted]) ->
                  exists z, HNStory.score d = Some z /\ 0 < z).
Proof.
  split; [reflexivity|]. split; [reflexivity|].
  intros H. destruct (H (toHNStory downvoted)) as (z & Hz & Hpos).
  - left. reflexivity.
  - cbn in Hz. injection Hz as <-. lia.
Qed.

(** C3, amended: every story of the transformer's output has a score, and
    it is not zero. *)
Theorem output_scores_nonzero (hits : list AlgoliaStory.t) (d : HNStory.t) :
  In d (convertedStories hits) ->
  exists z, HNStory.score d = Some z /\ z <> 0.
Proof.
  intros Hin. apply convertedStories_In in Hin as (story & _ & Hk & ->).
  apply has_title_and_points_true in Hk as [_ Hp]. exact Hp.
Qed.

Lemma output_scores_nonzero_witness :
  exists z, HNStory.score (toHNStory downvoted) = Some z /\ z <> 0.
Proof.
  apply (output_scores_nonzero [downvoted] (toHNStory downvoted)).
  left. reflexivity.
Defined.

(** *** Identifiers *)

Lemma parseInt_NaN_iff input :
  parseInt input = NaN <->
  (let '(sign, s1) := strip_sign (trim_start input) in
   let '(R, s2) := strip_prefix s1 in
   digits_prefix R s2 = []).
Proof.
  unfold parseInt.
  destruct (strip_sign (trim_start input)) as [sign s1].
  destruct (strip_prefix s1) as [R s2].
  destruct (digits_prefix R s2); split; intros H; congruence.
Qed.

(** A retained record whose identifier does not parse still yields a story. *)
Lemma unparsed_identifier_emitted hits story :
  In story hits ->
  has_title_and_points story = true ->
  parseInt (AlgoliaStory.objectID story) = NaN ->
  exists d, In d (convertedStories hits) /\ HNStory.id d = NaN
            /\ HNStory.title d = AlgoliaStory.title story.
Proof.
  intros Hin Hk Hnan. exists (toHNStory story). split.
  - apply convertedStories_In. eauto.
  - split; [exact Hnan | reflexivity].
Qed.

(** C9: the identifier is not validated.  There is a record with a
    non-empty title and non-zero points whose objectID has no leading
    decimal digit, for which the transformer emits a story whose id is NaN;
    [parseInt] reads the longest numeric prefix where there is one. *)
Theorem identifier_not_validated :
  exists story,
    (exists t, AlgoliaStory.title story = Some t /\ t <> "")
    /\ (exists p, AlgoliaStory.points story = Some p /\ p <> 0)
    /\ digits_prefix 10 (AlgoliaStory.objectID story) = []
    /\ (exists d, In d (convertedStories [story]) /\ HNStory.id d = NaN)
    /\ parseInt "41000001" = Num 41000001
    /\ parseInt "17-story" = Num 17.
Proof.
  exists unnumbered. repeat split.
  - exists "Ask HN: what are you reading?". split; [reflexivity | discriminate].
  - exists 12. split; [reflexivity | lia].
  - exists (toHNStory unnumbered). split; [left|]; reflexivity.
Qed.

(** ** [formatTime] *)

Section FormatTime.
Local Open Scope Q_scope.

Lemma Qfloor_unique (x : Q) (n : Z) :
  inject_Z n <= x -> x < inject_Z (n + 1) -> Qfloor x = n.
Proof.
  intros Hle Hlt.
  assert (H1 : (n <= Qfloor x)%Z).
  { rewrite <- (Qfloor_Z n). now apply Qfloor_resp_le. }
  assert (H2 : (Qfloor x < n + 1)%Z).
  { rewrite Zlt_Qlt. eapply Qle_lt_trans; [apply Qfloor_le | exact Hlt]. }
  lia.
Qed.

Lemma Qfloor_negative (x : Q) : x < 0 -> (Qfloor x < 0)%Z.
Proof.
  intros H. rewrite Zlt_Qlt.
  eapply Qle_lt_trans; [apply Qfloor_le | exact H].
Qed.

(** The whole hours in a number of seconds. *)
Lemma hours_of_seconds (d : Q) (N : Z) :
  inject_Z (3600 * N) <= d -> d < inject_Z (3600 * (N + 1)) ->
  Qfloor (d / 3600) = N.
Proof.
  intros Hle Hlt. apply Qfloor_unique.
  - apply Qle_shift_div_l; [reflexivity|].
    eapply Qle_trans; [|exact Hle].
    rewrite inject_Z_mult. rewrite Qmult_comm. apply Qle_refl.
  - apply Qlt_shift_div_r; [reflexivity|].
    eapply Qlt_le_trans; [exact Hlt|].
    rewrite inject_Z_mult. rewrite Qmult_comm. apply Qle_refl.
Qed.

Lemma formatTime_text Date_now timestamp :
  formatTime Date_now timestamp
  = text_for_hours (Qfloor (elapsed Date_now timestamp / 3600)).
Proof.
  unfold formatTime, text_for_hours, elapsed.
  set (hours := Qfloor _).
  destruct (Z.ltb_spec hours 1); [reflexivity|].
  destruct (Z.eqb_spec hours 1); [reflexivity|].
  destruct (Z.ltb_spec hours 24); [reflexivity|].
  change (inject_Z hours / 24) with (inject_Z hours / inject_Z 24).
  rewrite <- Zdiv_Qdiv.
  destruct (Z.eqb_spec (hours / 24) 1) as [E|E], (Z.ltb_spec hours 48) as [L|L];
    try reflexivity; exfalso; revert E; Z.div_mod_to_equations; lia.
Qed.

(** C5, as stated, fails between 25 and 47 hours: thirty hours after the
    timestamp the text is "1 day ago", where the claim has the count of
    days, 1, followed by "days ago". *)
Lemma formatTime_thirty_hours :
  let Date_now := 1700000000000%Z in
  let timestamp := inject_Z (1700000000 - 30 * 3600) in
  timestamp <= inject_Z Date_now / 1000
  /\ Qfloor (elapsed Date_now timestamp / 3600) = 30%Z
  /\ formatTime Date_now timestamp = "1 day ago"
  /\ formatTime Date_now timestamp <> NumberToString (30 / 24) +:+ " days ago".
Proof.
  cbv zeta. split; [discriminate|]. split; [reflexivity|].
  split; [reflexivity|]. vm_compute. discriminate.
Qed.

(** Exact arithmetic is one instance of the rounding. *)
Lemma formatTime_fl_exact Date_now timestamp :
  formatTime_fl (fun x => x) Date_now timestamp = formatTime Date_now timestamp.
Proof. reflexivity. Qed.

Lemma exact_Rounding : Rounding (fun x => x).
Proof.
  split.
  - auto.
  - auto.
  - intros. reflexivity.
  - intros x H1 H2. split; lra.
  - intros. reflexivity.
Qed.

Section Rounded.

Variable fl : Q -> Q.
Hypothesis Hfl : Rounding fl.

Lemma fl_int (x : Q) (n : Z) :
  x == inject_Z n -> (Z.abs n <= 2 ^ 53)%Z -> fl x == inject_Z n.
Proof.
  intros E Hn. rewrite (fl_proper fl Hfl _ _ E). now apply (fl_integer fl Hfl).
Qed.

Lemma fl_ge_int (x : Q) (n : Z) :
  inject_Z n <= x -> (Z.abs n <= 2 ^ 53)%Z -> inject_Z n <= fl x.
Proof.
  intros Hle Hn. rewrite <- (fl_integer fl Hfl n Hn). now apply (fl_monotone fl Hfl).
Qed.

Lemma fl_le_int (x : Q) (n : Z) :
  x <= inject_Z n -> (Z.abs n <= 2 ^ 53)%Z -> fl x <= inject_Z n.
Proof.
  intros Hle Hn. rewrite <- (fl_integer fl Hfl n Hn). now apply (fl_monotone fl Hfl).
Qed.


Lemma now_rounded (M : Z) :
  (0 <= M < 4294967296000)%Z ->
  inject_Z M / 1000 - (1 # 2097152) <= fl (inject_Z M / 1000)
  /\ fl (inject_Z M / 1000) <= inject_Z M / 1000 + (1 # 2097152)
  /\ 0 <= fl (inject_Z M / 1000)
  /\ fl (inject_Z M / 1000) <= 4294967296.
Proof.
  intros [H0 H1].
  assert (Hm0 : 0 <= inject_Z M) by (change 0 with (inject_Z 0); now rewrite <- Zle_Qle).
  assert (Hm1 : inject_Z M <= 4294967296000)
    by (change 4294967296000 with (inject_Z 4294967296000); rewrite <- Zle_Qle; lia).
  assert (Hup : fl (inject_Z M / 1000) <= 4294967296).
  { change 4294967296 with (inject_Z 4294967296). apply fl_le_int; [|cbn; lia].
    change (inject_Z 4294967296) with 4294967296.
    unfold Qdiv. change (/ 1000) with (1 # 1000). lra. }
  destruct (Z.eq_dec M 0%Z) as [->|Hne].
  - assert (E : fl (inject_Z 0 / 1000) == inject_Z 0)
      by (apply fl_int; [reflexivity | cbn; lia]).
    change (inject_Z 0) with 0 in *. rewrite E.
    unfold Qdiv. change (/ 1000) with (1 # 1000). repeat split; lra.
  - assert (Hm2 : 1 <= inject_Z M)
      by (change 1 with (inject_Z 1); rewrite <- Zle_Qle; lia).
    destruct (fl_error fl Hfl (inject_Z M / 1000)) as [E1 E2].
    + unfold Qdiv. change (/ 1000) with (1 # 1000). lra.
    + unfold Qdiv. change (/ 1000) with (1 # 1000). lra.
    + unfold Qdiv in *. change (/ 1000) with (1 # 1000) in *.
      repeat split; lra.
Qed.


Lemma inject_Z_le (a b : Z) : (a <= b)%Z -> inject_Z a <= inject_Z b.
Proof. intros H. rewrite <- Zle_Qle. exact H. Qed.

Lemma hours_rounded (M t : Z) :
  (0 <= t)%Z -> (1000 * t <= M)%Z -> (M < 4294967296000)%Z ->
  Qfloor (fl (fl (fl (inject_Z M / 1000) - inject_Z t) / 3600))
  = ((M - 1000 * t) / 3600000)%Z.
Proof.
  intros Ht Htm HM.
  pose proof (Z.div_mod (M - 1000 * t) 3600000 ltac:(lia)) as Hdm.
  pose proof (Z.mod_pos_bound (M - 1000 * t) 3600000 ltac:(lia)) as Hr.
  set (N := ((M - 1000 * t) / 3600000)%Z) in *.
  set (r := ((M - 1000 * t) mod 3600000)%Z) in *.
  clearbody N r.
  assert (HN : (0 <= N <= 1193046)%Z) by lia.
  destruct (now_rounded M ltac:(lia)) as (B1 & B2 & B3 & B4).
  set (now' := fl (inject_Z M / 1000)) in *.
  assert (A : inject_Z t <= now').
  { apply fl_ge_int; [|lia]. apply Qle_shift_div_l; [reflexivity|].
    change 1000 with (inject_Z 1000). rewrite <- inject_Z_mult.
    apply inject_Z_le. lia. }
  assert (Ed : fl (now' - inject_Z t) == now' - inject_Z t).
  { apply (fl_sub_integer fl Hfl); [exact Ht | exact A |].
    eapply Qle_trans; [exact B4 | discriminate]. }
  assert (EQ : inject_Z M
               == 1000 * inject_Z t + 3600000 * inject_Z N + inject_Z r).
  { assert (Hz : M = (1000 * t + 3600000 * N + r)%Z) by lia.
    rewrite Hz at 1. rewrite !inject_Z_plus, !inject_Z_mult. reflexivity. }
  assert (Qt : 0 <= inject_Z t) by (apply (inject_Z_le 0); lia).
  assert (Qn0 : 0 <= inject_Z N) by (apply (inject_Z_le 0); lia).
  assert (Qn1 : inject_Z N <= 1193046) by (apply (inject_Z_le _ 1193046); lia).
  destruct (Z.eq_dec r 0%Z) as [Hr0|Hr0].
  - subst r. change (inject_Z 0) with 0 in EQ.
    assert (En : now' == inject_Z (t + 3600 * N)).
    { apply fl_int; [|lia]. rewrite inject_Z_plus, inject_Z_mult.
      change (inject_Z 3600) with 3600.
      unfold Qdiv. change (/ 1000) with (1 # 1000). lra. }
    assert (E3 : fl (fl (now' - inject_Z t) / 3600) == inject_Z N).
    { apply fl_int; [|lia]. rewrite Ed, En, inject_Z_plus, inject_Z_mult.
      change (inject_Z 3600) with 3600. field. }
    rewrite (Qfloor_comp _ _ E3). apply Qfloor_Z.
  - assert (Qr0 : 1 <= inject_Z r) by (apply (inject_Z_le 1); lia).
    assert (Qr1 : inject_Z r <= 3599999) by (apply (inject_Z_le _ 3599999); lia).
    unfold Qdiv in B1, B2. change (/ 1000) with (1 # 1000) in B1, B2.
    set (d := fl (now' - inject_Z t)) in *.
    apply Qfloor_unique.
    + apply fl_ge_int; [|lia]. unfold Qdiv. change (/ 3600) with (1 # 3600). lra.
    + destruct (fl_error fl Hfl (d / 3600)) as [_ E2].
      * unfold Qdiv. change (/ 3600) with (1 # 3600). lra.
      * unfold Qdiv. change (/ 3600) with (1 # 3600). lra.
      * rewrite inject_Z_plus. change (inject_Z 1) with 1.
        unfold Qdiv in *. change (/ 3600) with (1 # 3600) in *. lra.
Qed.


Lemma days_rounded (N : Z) :
  (0 <= N <= 2097152)%Z -> Qfloor (fl (inject_Z N / 24)) = (N / 24)%Z.
Proof.
  intros HN.
  pose proof (Z.div_mod N 24 ltac:(lia)) as Hdm.
  pose proof (Z.mod_pos_bound N 24 ltac:(lia)) as Hr.
  set (k := (N / 24)%Z) in *. set (r := (N mod 24)%Z) in *. clearbody k r.
  assert (EQ : inject_Z N == 24 * inject_Z k + inject_Z r).
  { rewrite Hdm at 1. rewrite inject_Z_plus, inject_Z_mult. reflexivity. }
  assert (Qk0 : 0 <= inject_Z k) by (apply (inject_Z_le 0); lia).
  assert (Qk1 : inject_Z k <= 87382) by (apply (inject_Z_le _ 87382); lia).
  destruct (Z.eq_dec r 0%Z) as [Hr0|Hr0].
  - subst r. change (inject_Z 0) with 0 in EQ.
    assert (E : fl (inject_Z N / 24) == inject_Z k).
    { apply fl_int; [|lia]. rewrite EQ. field. }
    rewrite (Qfloor_comp _ _ E). apply Qfloor_Z.
  - assert (Qr0 : 1 <= inject_Z r) by (apply (inject_Z_le 1); lia).
    assert (Qr1 : inject_Z r <= 23) by (apply (inject_Z_le _ 23); lia).
    apply Qfloor_unique.
    + apply fl_ge_int; [|lia]. unfold Qdiv. change (/ 24) with (1 # 24). lra.
    + destruct (fl_error fl Hfl (inject_Z N / 24)) as [_ E2].
      * unfold Qdiv. change (/ 24) with (1 # 24). lra.
      * unfold Qdiv. change (/ 24) with (1 # 24). lra.
      * rewrite inject_Z_plus. change (inject_Z 1) with 1.
        unfold Qdiv in *. change (/ 24) with (1 # 24) in *. lra.
Qed.

(** What [formatTime_fl] returns once the whole hours are known. *)
Lemma formatTime_fl_text (M : Z) (timestamp : Q) (N : Z) :
  Qfloor (fl (fl (fl (inject_Z M / 1000) - timestamp) / 3600)) = N ->
  (N <= 2097152)%Z ->
  formatTime_fl fl M timestamp = text_for_hours N.
Proof.
  intros HN Hb. unfold formatTime_fl, text_for_hours. cbv zeta. rewrite HN.
  destruct (Z.ltb_spec N 1); [reflexivity|].
  destruct (Z.eqb_spec N 1); [reflexivity|].
  destruct (Z.ltb_spec N 24); [reflexivity|].
  rewrite days_rounded by lia.
  destruct (Z.eqb_spec (N / 24) 1) as [E|E], (Z.ltb_spec N 48) as [L|L];
    try reflexivity; exfalso; revert E; Z.div_mod_to_equations; lia.
Qed.

(** The whole hours when the rounded difference is a whole number of hours. *)
Lemma hours_of_exact_diff (M : Z) (timestamp : Q) (h : Z) :
  fl (inject_Z M / 1000) - timestamp == inject_Z (3600 * h) ->
  (0 <= h <= 2097152)%Z ->
  Qfloor (fl (fl (fl (inject_Z M / 1000) - timestamp) / 3600)) = h.
Proof.
  intros E Hh.
  assert (Ed : fl (fl (inject_Z M / 1000) - timestamp) == inject_Z (3600 * h))
    by (apply fl_int; [exact E | lia]).
  assert (Eq : fl (fl (fl (inject_Z M / 1000) - timestamp) / 3600) == inject_Z h).
  { apply fl_int; [|lia]. rewrite Ed, inject_Z_mult.
    change (inject_Z 3600) with 3600. field. }
  rewrite (Qfloor_comp _ _ Eq). apply Qfloor_Z.
Qed.

(** The timestamp [now - c] of the examples, as the code computes it. *)
Lemma example_timestamp (M c : Z) :
  (0 <= c)%Z -> (1000 * c <= M)%Z -> (M < 4294967296000)%Z ->
  let now := fl (inject_Z M / 1000) in
  now - fl (now - inject_Z c) == inject_Z c.
Proof.
  intros Hc Hcm HM. cbv zeta.
  destruct (now_rounded M ltac:(lia)) as (_ & _ & _ & B4).
  assert (A : inject_Z c <= fl (inject_Z M / 1000)).
  { apply fl_ge_int; [|lia]. apply Qle_shift_div_l; [reflexivity|].
    change 1000 with (inject_Z 1000). rewrite <- inject_Z_mult.
    apply inject_Z_le. lia. }
  rewrite (fl_sub_integer fl Hfl _ c Hc A).
  - ring.
  - eapply Qle_trans; [exact B4 | discriminate].
Qed.


(** C5, amended: in the arithmetic of doubles, for a current time below
    2^32 seconds and an integer timestamp from 0 up to the current time,
    with [N] the whole hours elapsed, [formatTime] returns "just now" for
    [N = 0], "1 hour ago" for [N = 1], "N hours ago" from 2 to 23,
    "1 day ago" from 24 to 47 and "D days ago", [D] the whole number of
    24-hour days in [N], from 48 on; and from two days after the epoch on
    the five examples of the claim hold, with [now] and [now - c] as the
    code computes them. *)
Theorem formatTime_by_whole_hours (Date_now : Z) :
  (0 <= Date_now < 4294967296000)%Z ->
  (forall t : Z,
      (0 <= t)%Z -> (1000 * t <= Date_now)%Z ->
      let N := ((Date_now - 1000 * t) / 3600000)%Z in
      (N = 0%Z -> formatTime_fl fl Date_now (inject_Z t) = "just now")
      /\ (N = 1%Z -> formatTime_fl fl Date_now (inject_Z t) = "1 hour ago")
      /\ ((2 <= N <= 23)%Z ->
          formatTime_fl fl Date_now (inject_Z t) = NumberToString N +:+ " hours ago")
      /\ ((24 <= N <= 47)%Z ->
          formatTime_fl fl Date_now (inject_Z t) = "1 day ago")
      /\ ((48 <= N)%Z ->
          formatTime_fl fl Date_now (inject_Z t)
          = NumberToString (N / 24) +:+ " days ago"))
  /\ ((172800000 <= Date_now)%Z ->
      let now := fl (inject_Z Date_now / 1000) in
      formatTime_fl fl Date_now now = "just now"
      /\ formatTime_fl fl Date_now (fl (now - 3600)) = "1 hour ago"
      /\ formatTime_fl fl Date_now (fl (now - 7200)) = "2 hours ago"
      /\ formatTime_fl fl Date_now (fl (now - 86400)) = "1 day ago"
      /\ formatTime_fl fl Date_now (fl (now - 172800)) = "2 days ago").
Proof.
  intros HM. split.
  - intros t Ht Htm. cbv zeta.
    pose proof (hours_rounded Date_now t Ht Htm ltac:(lia)) as Hh.
    set (N := ((Date_now - 1000 * t) / 3600000)%Z) in *.
    assert (HN : (N <= 1193046)%Z).
    { assert ((N < 1193047)%Z); [|lia].
      subst N. apply Z.div_lt_upper_bound; lia. }
    rewrite (formatTime_fl_text _ _ N Hh ltac:(lia)). clearbody N. clear Hh.
    unfold text_for_hours.
    repeat split; intros HN'.
    + rewrite HN'. reflexivity.
    + rewrite HN'. reflexivity.
    + destruct (Z.ltb_spec N 1); [lia|].
      destruct (Z.eqb_spec N 1); [lia|].
      destruct (Z.ltb_spec N 24); [reflexivity|lia].
    + destruct (Z.ltb_spec N 1); [lia|].
      destruct (Z.eqb_spec N 1); [lia|].
      destruct (Z.ltb_spec N 24); [lia|].
      destruct (Z.ltb_spec N 48); [reflexivity|lia].
    + destruct (Z.ltb_spec N 1); [lia|].
      destruct (Z.eqb_spec N 1); [lia|].
      destruct (Z.ltb_spec N 24); [lia|].
      destruct (Z.ltb_spec N 48); [lia|reflexivity].
  - intros Hlate. cbv zeta.
    assert (Hex : forall h : Z, (0 <= h <= 48)%Z ->
              formatTime_fl fl Date_now
                (fl (fl (inject_Z Date_now / 1000) - inject_Z (3600 * h)))
              = text_for_hours h).
    { intros h Hh. apply formatTime_fl_text; [|lia].
      apply hours_of_exact_diff; [|lia].
      apply (example_timestamp Date_now (3600 * h)); lia. }
    split; [|split; [|split; [|split]]].
    + apply (formatTime_fl_text _ _ 0); [|lia].
      apply hours_of_exact_diff; [|lia]. change (inject_Z (3600 * 0)) with 0. ring.
    + exact (Hex 1%Z ltac:(lia)).
    + exact (Hex 2%Z ltac:(lia)).
    + exact (Hex 24%Z ltac:(lia)).
    + exact (Hex 48%Z ltac:(lia)).
Qed.

End Rounded.

Lemma formatTime_by_whole_hours_witness :
  formatTime_fl (fun x => x) 1700000000000 (inject_Z 1699990000)
  = NumberToString 2 +:+ " hours ago".
Proof.
  refine (proj1 (proj2 (proj2
    (proj1 (formatTime_by_whole_hours (fun x => x) exact_Rounding
              1700000000000%Z _)
       1699990000%Z _ _))) _).
  - lia.
  - lia.
  - lia.
  - vm_compute. split; discriminate.
Defined.

(** With the rounding of doubles: one hour before a current time that is
    not a double itself, and thirty hours before a whole second. *)
Lemma formatTime_fl_binary64_example :
  let now := Binary64.round (1700000000002 # 1000) in
  Qeq_bool (Binary64.round (now - 3600)) (7130301700513989 # 4194304) = true
  /\ formatTime_fl Binary64.round 1700000000002 (Binary64.round (now - 3600))
     = "1 hour ago"
  /\ formatTime_fl Binary64.round 1700000000000
       (inject_Z (1700000000 - 30 * 3600)) = "1 day ago".
Proof. vm_compute. repeat split; reflexivity. Qed.

(** C10: for a timestamp after the current time [formatTime] returns
    "just now". *)
Theorem formatTime_future (Date_now : Z) (timestamp : Q) :
  inject_Z Date_now / 1000 < timestamp ->
  formatTime Date_now timestamp = "just now".
Proof.
  intros Hfut. rewrite formatTime_text. unfold text_for_hours.
  assert (Hneg : elapsed Date_now timestamp / 3600 < 0).
  { apply Qlt_shift_div_r; [reflexivity|]. unfold elapsed. lra. }
  apply Qfloor_negative in Hneg.
  destruct (Z.ltb_spec (Qfloor (elapsed Date_now timestamp / 3600)) 1);
    [reflexivity|lia].
Qed.

Lemma formatTime_future_witness :
  formatTime 1700000000000 (inject_Z 1700003600) = "just now".
Proof.
  apply (formatTime_future 1700000000000 (inject_Z 1700003600)).
  reflexivity.
Defined.

End FormatTime.

(** ** [getDomain] *)

Section GetDomainFacts.
Variable URL_hostname : string -> option string.

Lemma getDomain_absent :
  getDomain URL_hostname None = None /\ getDomain URL_hostname (Some "") = None.
Proof. split; reflexivity. Qed.

Lemma getDomain_unparseable u :
  URL_hostname u = None -> getDomain URL_hostname (Some u) = None.
Proof.
  intros H. unfold getDomain. destruct (negb _); [reflexivity|].
  now rewrite H.
Qed.

Lemma getDomain_parsed u hostname :
  u <> "" -> URL_hostname u = Some hostname ->
  getDomain URL_hostname (Some u) = Some (replace "www." "" hostname).
Proof.
  intros Hu H. unfold getDomain, truthy_string.
  destruct (String.eqb_spec u ""); [contradiction|]. cbn. now rewrite H.
Qed.

End GetDomainFacts.

Lemma substring_all s : String.substring 0 (String.length s) s = s.
Proof. induction s as [|c s IH]; [reflexivity|]. cbn. now rewrite IH. Qed.

(** A leading "www." is removed. *)
Lemma replace_www_leading rest : replace "www." "" ("www." +:+ rest) = rest.
Proof.
  change ("www." +:+ rest)
    with (String "w" (String "w" (String "w" (String "." rest)))).
  destruct rest as [|c rest]; [reflexivity|].
  cbn -[String.substring String.length].
  cbn [String.length Nat.sub String.substring].
  change ("" +:+ ?x) with x. f_equal. apply substring_all.
Qed.

(** So is a "www." that follows another character: the search is not tied
    to the start of the hostname. *)
Lemma replace_www_inner c rest :
  c <> "w"%char -> replace "www." "" (String c ("www." +:+ rest)) = String c rest.
Proof.
  intros Hc. cbn [replace String.prefix].
  destruct (ascii_dec "w" c) as [E|_]; [congruence|].
  f_equal. apply replace_www_leading.
Qed.

Lemma getDomain_examples :
  getDomain SimpleURL.hostname (Some "https://www.example.com/x") = Some "example.com"
  /\ getDomain SimpleURL.hostname (Some "not a url") = None
  /\ getDomain SimpleURL.hostname None = None.
Proof. repeat split. Qed.

(** C4: [getDomain] removes the first "www." of the hostname wherever it
    stands, not only a leading one: for a URL whose hostname is
    "api.www.example.com" the result is "api.example.com", where the claim
    keeps the hostname whole. *)
Theorem getDomain_removes_inner_www
    (URL_hostname : string -> option string) (u : string) :
  u <> "" ->
  URL_hostname u = Some "api.www.example.com" ->
  getDomain URL_hostname (Some u) = Some "api.example.com".
Proof.
  intros Hu H. rewrite (getDomain_parsed _ _ _ Hu H). reflexivity.
Qed.

Lemma getDomain_removes_inner_www_witness :
  getDomain SimpleURL.hostname (Some "https://api.www.example.com/x")
  = Some "api.example.com".
Proof.
  apply (getDomain_removes_inner_www SimpleURL.hostname
           "https://api.www.example.com/x").
  - discriminate.
  - reflexivity.
Defined.

(** ** The fetch flow *)









(** ** The CVD preference *)

Lemma is_cvd_mode_true v :
  is_cvd_mode v = true <-> v = "protanopia" \/ v = "deuteranopia".
Proof.
  unfold is_cvd_mode. rewrite orb_true_iff, !String.eqb_eq. reflexivity.
Qed.

Lemma is_cvd_mode_false v :
  is_cvd_mode v = false <-> v <> "protanopia" /\ v <> "deuteranopia".
Proof.
  unfold is_cvd_mode. rewrite orb_false_iff, !String.eqb_neq. reflexivity.
Qed.

(** What [startup] does when the query parameter is not a mode. *)
Lemma startup_without_param params b :
  no_mode_in (URLSearchParams_get "cvd" params) ->
  startup params b =
    match getItem "cvd-preference" b with
    | Some stored =>
        if is_cvd_mode stored then setAttribute "data-cvd" stored b else b
    | None => b
    end.
Proof.
  intros Hno. unfold startup.
  destruct (URLSearchParams_get "cvd" params) as [v|]; [|reflexivity].
  destruct (Hno v eq_refl) as [H1 H2].
  now rewrite (proj2 (is_cvd_mode_false v)).
Qed.

(** C7: at startup a [cvd] query parameter that is one of the two modes is
    set as the [data-cvd] attribute and stored under [cvd-preference],
    whatever was stored; otherwise a stored value that is one of the two
    modes is set as the attribute and the storage is left as it was; and
    when neither is a mode nothing changes. *)
Theorem startup_applies_preference (params : list (string * string)) (b : Browser) :
  let cvdParam := URLSearchParams_get "cvd" params in
  let b' := startup params b in
  (forall v, cvdParam = Some v -> v = "protanopia" \/ v = "deuteranopia" ->
     body_attributes b' !! "data-cvd" = Some v
     /\ localStorage b' !! "cvd-preference" = Some v)
  /\ (no_mode_in cvdParam ->
      forall stored, localStorage b !! "cvd-preference" = Some stored ->
        stored = "protanopia" \/ stored = "deuteranopia" ->
        body_attributes b' !! "data-cvd" = Some stored
        /\ localStorage b' = localStorage b)
  /\ (no_mode_in cvdParam ->
      (forall stored, localStorage b !! "cvd-preference" = Some stored ->
         stored <> "protanopia" /\ stored <> "deuteranopia") ->
      b' = b).
Proof.
  cbv zeta. split; [|split].
  - intros v Hv Hmode. unfold startup. rewrite Hv.
    rewrite (proj2 (is_cvd_mode_true v) Hmode). cbn.
    split; apply lookup_insert_eq.
  - intros Hno stored Hst Hmode. rewrite (startup_without_param _ _ Hno).
    unfold getItem. rewrite Hst, (proj2 (is_cvd_mode_true stored) Hmode). cbn.
    split; [apply lookup_insert_eq | reflexivity].
  - intros Hno Hst. rewrite (startup_without_param _ _ Hno).
    unfold getItem. destruct (localStorage b !! "cvd-preference") as [stored|];
      [|reflexivity].
    now rewrite (proj2 (is_cvd_mode_false stored) (Hst stored eq_refl)).
Qed.

Lemma startup_applies_preference_witness :
  body_attributes (startup [("cvd", "protanopia")] returning_visitor) !! "data-cvd"
    = Some "protanopia"
  /\ localStorage (startup [("cvd", "protanopia")] returning_visitor) !! "cvd-preference"
    = Some "protanopia".
Proof.
  refine (proj1 (startup_applies_preference [("cvd", "protanopia")] returning_visitor)
            "protanopia" _ _).
  - reflexivity.
  - left. reflexivity.
Defined.

(** Startup touches no other attribute and no other key. *)
Lemma startup_frame params b :
  (forall name, name <> "data-cvd" ->
     body_attributes (startup params b) !! name = body_attributes b !! name)
  /\ (forall key, key <> "cvd-preference" ->
     localStorage (startup params b) !! key = localStorage b !! key).
Proof.
  unfold startup, getItem.
  destruct (URLSearchParams_get "cvd" params) as [v|];
    [destruct (is_cvd_mode v)|];
    try (destruct (localStorage b !! "cvd-preference") as [stored|];
         [destruct (is_cvd_mode stored)|]);
    cbn; split; intros k Hk; rewrite ?lookup_insert_ne by congruence; reflexivity.
Qed.

(** C8: after [handleCvdChange] the [data-cvd] attribute and the stored
    [cvd-preference] agree: with [null] both are removed, with a mode both
    hold that mode; the selector's empty value counts as [null]. *)
Theorem handleCvdChange_keeps_agreement (mode : option string) (st : CvdState) :
  let st' := handleCvdChange mode st in
  body_attributes (browser st') !! "data-cvd"
    = localStorage (browser st') !! "cvd-preference"
  /\ cvdMode st' = mode
  /\ (mode = None ->
      body_attributes (browser st') !! "data-cvd" = None
      /\ localStorage (browser st') !! "cvd-preference" = None)
  /\ (forall m, mode = Some m -> m <> "" ->
      body_attributes (browser st') !! "data-cvd" = Some m
      /\ localStorage (browser st') !! "cvd-preference" = Some m)
  /\ (body_attributes (browser (onChange "" st)) !! "data-cvd" = None
      /\ localStorage (browser (onChange "" st)) !! "cvd-preference" = None).
Proof.
  cbv zeta. unfold onChange, handleCvdChange, truthy_string.
  split; [|split; [|split; [|split]]].
  - destruct mode as [m|]; [destruct (String.eqb_spec m "")|]; cbn;
      rewrite ?lookup_insert_eq, ?lookup_delete_eq; reflexivity.
  - reflexivity.
  - intros ->. cbn. split; apply lookup_delete_eq.
  - intros m -> Hm. destruct (String.eqb_spec m ""); [contradiction|].
    cbn. split; apply lookup_insert_eq.
  - cbn. split; apply lookup_delete_eq.
Qed.

Lemma handleCvdChange_keeps_agreement_witness :
  body_attributes (browser (handleCvdChange None (initialCvdState returning_visitor)))
    !! "data-cvd" = None
  /\ localStorage (browser (handleCvdChange None (initialCvdState returning_visitor)))
    !! "cvd-preference" = None.
Proof.
  refine (proj1 (proj2 (proj2
    (handleCvdChange_keeps_agreement None (initialCvdState returning_visitor)))) _).
  reflexivity.
Defined.

(** The toggle touches no other attribute and no other key. *)
Lemma handleCvdChange_frame mode st :
  (forall name, name <> "data-cvd" ->
     body_attributes (browser (handleCvdChange mode st)) !! name
     = body_attributes (browser st) !! name)
  /\ (forall key, key <> "cvd-preference" ->
     localStorage (browser (handleCvdChange mode st)) !! key
     = localStorage (browser st) !! key).
Proof.
  unfold handleCvdChange, truthy_string.
  destruct mode as [m|]; [destruct (String.eqb_spec m "")|]; cbn;
    split; intros k Hk;
    rewrite ?lookup_insert_ne, ?lookup_delete_ne by congruence; reflexivity.
Qed.

(** * Further properties *)

(** ** Identifiers written as decimal numerals *)

Lemma digit_value_pretty_N_char (d : N) :
  (d < 10)%N -> digit_value (pretty_N_char d) = Some (Z.of_N d).
Proof.
  intros Hd.
  assert (d = 0 \/ d = 1 \/ d = 2 \/ d = 3 \/ d = 4 \/ d = 5 \/ d = 6
          \/ d = 7 \/ d = 8 \/ d = 9)%N as H by lia.
  repeat (destruct H as [->|H]; [reflexivity|]). subst d. reflexivity.
Qed.

(** The digits that [pretty_N_go] writes in front of [s], read back. *)
Lemma digits_prefix_pretty_N_go (x : N) :
  exists ds,
    (forall s, digits_prefix 10 (pretty_N_go x s) = (ds ++ digits_prefix 10 s)%list)
    /\ (forall acc, fold_left (fun acc d => acc * 10 + d) ds acc
                    = acc * 10 ^ Z.of_nat (length ds) + Z.of_N x)
    /\ ((0 < x)%N -> ds <> []).
Proof.
  induction (N.lt_wf_0 x) as [x _ IH].
  destruct (N.eq_dec x 0%N) as [->|Hx].
  - exists []. repeat split; [|lia]. intros acc. cbn. lia.
  - assert (Hpos : (0 < x)%N) by lia.
    destruct (IH (x / 10)%N) as (ds & Hds & Hval & _).
    { apply N.div_lt; lia. }
    exists (ds ++ [Z.of_N (x mod 10)])%list. repeat split.
    + intros s. rewrite pretty_N_go_step by exact Hpos. rewrite Hds.
      cbn [digits_prefix].
      rewrite digit_value_pretty_N_char by (apply N.mod_lt; lia).
      assert (Hlt : (Z.of_N (x mod 10) <? 10) = true).
      { apply Z.ltb_lt. pose proof (N.mod_lt x 10). lia. }
      rewrite Hlt, <- List.app_assoc. reflexivity.
    + intros acc. rewrite fold_left_app, Hval. cbn [fold_left].
      rewrite List.length_app. cbn [length].
      rewrite Nat2Z.inj_add, Z.pow_add_r by lia.
      rewrite N2Z.inj_div, N2Z.inj_mod.
      pose proof (Z.div_mod (Z.of_N x) 10). change (Z.of_N 10) with 10.
      change (10 ^ Z.of_nat 1) with 10. lia.
    + intros _ H. apply List.app_eq_nil in H as [_ H]. discriminate.
Qed.

(** A positive number is written with a leading digit from 1 to 9. *)
Lemma pretty_N_go_head (x : N) (s : string) :
  (0 < x)%N ->
  exists d rest, (0 < d < 10)%N /\ pretty_N_go x s = String (pretty_N_char d) rest.
Proof.
  revert s. induction (N.lt_wf_0 x) as [x _ IH]. intros s Hpos.
  rewrite pretty_N_go_step by exact Hpos.
  destruct (N.lt_ge_cases x 10%N) as [Hsmall|Hbig].
  - rewrite N.div_small, N.mod_small, pretty_N_go_0 by exact Hsmall.
    exists x, s. split; [lia | reflexivity].
  - apply IH; [apply N.div_lt; lia|].
    apply N.div_str_pos. lia.
Qed.

Lemma digit_led_not_stripped (d : N) (rest : string) :
  (0 < d < 10)%N ->
  let s := String (pretty_N_char d) rest in
  trim_start s = s /\ strip_sign s = (1, s) /\ strip_prefix s = (10, s).
Proof.
  intros Hd.
  assert (d = 1 \/ d = 2 \/ d = 3 \/ d = 4 \/ d = 5 \/ d = 6
          \/ d = 7 \/ d = 8 \/ d = 9)%N as H by lia.
  repeat (destruct H as [->|H]; [repeat split|]). subst d. repeat split.
Qed.

Lemma parseInt_pretty_N_go (x : N) :
  (0 < x)%N ->
  parseInt (pretty_N_go x "") = Num (Z.of_N x)
  /\ parseInt (String "-" (pretty_N_go x "")) = Num (- Z.of_N x).
Proof.
  intros Hpos.
  destruct (pretty_N_go_head x "" Hpos) as (d & rest & Hd & Hhead).
  destruct (digit_led_not_stripped d rest Hd) as (Htrim & Hsign & Hpre).
  destruct (digits_prefix_pretty_N_go x) as (ds & Hds & Hval & Hne).
  specialize (Hds ""). cbn [digits_prefix] in Hds. rewrite List.app_nil_r in Hds.
  specialize (Hval 0). specialize (Hne Hpos).
  split.
  - unfold parseInt. rewrite Hhead, Htrim, Hsign, Hpre, <- Hhead, Hds.
    destruct ds as [|d0 ds']; [contradiction|].
    unfold math_int. rewrite Hval. f_equal; lia.
  - unfold parseInt.
    change (trim_start (String "-" (pretty_N_go x "")))
      with (String "-" (pretty_N_go x "")).
    change (strip_sign (String "-" (pretty_N_go x "")))
      with (-1, pretty_N_go x "").
    cbv beta iota. rewrite Hhead, Hpre, <- Hhead, Hds.
    destruct ds as [|d0 ds']; [contradiction|].
    unfold math_int. rewrite Hval. f_equal; lia.
Qed.

(** The decimal numeral of an integer parses back to it. *)
Lemma parseInt_NumberToString (n : Z) : parseInt (NumberToString n) = Num n.
Proof.
  unfold NumberToString, pretty, pretty_Z.
  destruct n as [|p|p]; [reflexivity| |].
  - unfold pretty, pretty_positive, pretty, pretty_N.
    destruct (decide (N.pos p = 0%N)) as [E|_]; [discriminate|].
    apply (parseInt_pretty_N_go (N.pos p)). lia.
  - unfold pretty, pretty_positive, pretty, pretty_N.
    destruct (decide (N.pos p = 0%N)) as [E|_]; [discriminate|].
    apply (parseInt_pretty_N_go (N.pos p)). lia.
Qed.

(** X1: an identifier that is the decimal numeral of an integer [n] of
    magnitude up to 2^53, which a double holds exactly, becomes the number
    [n], and the discussion link spells the identifier out again. *)
Theorem numeral_identifier_round_trip (story : AlgoliaStory.t) (n : Z) :
  - 2 ^ 53 <= n <= 2 ^ 53 ->
  AlgoliaStory.objectID story = NumberToString n ->
  HNStory.id (toHNStory story) = Num n
  /\ discussion_url (HNStory.id (toHNStory story))
     = "https://news.ycombinator.com/item?id=" +:+ AlgoliaStory.objectID story.
Proof.
  intros _ Hid. assert (E : HNStory.id (toHNStory story) = Num n).
  { cbn. rewrite Hid. apply parseInt_NumberToString. }
  split; [exact E|]. unfold discussion_url. rewrite E, Hid. reflexivity.
Qed.

Lemma numeral_identifier_round_trip_witness :
  HNStory.id (toHNStory downvoted) = Num 41000001
  /\ discussion_url (HNStory.id (toHNStory downvoted))
     = "https://news.ycombinator.com/item?id=" +:+ AlgoliaStory.objectID downvoted.
Proof.
  apply (numeral_identifier_round_trip downvoted 41000001).
  - vm_compute. split; discriminate.
  - reflexivity.
Defined.

(** ** More on the transformer's output *)

Lemma convertedStories_sorted hits : StronglySorted score_ge (convertedStories hits).
Proof.
  apply (StronglySorted_impl_on scored (desc score_key)).
  - unfold scored, desc, score_ge, score_key.
    intros a b [x Hx] [y Hy]. rewrite Hx, Hy. eauto.
  - apply convertedStories_scored.
  - apply (sort_sorted _ scored score_key by_score_desc_key), retained_scored.
Qed.

Lemma convertedStories_stable k hits :
  List.filter (has_score k) (convertedStories hits)
  = List.filter (has_score k)
      (List.map toHNStory (List.filter has_title_and_points hits)).
Proof.
  rewrite filter_has_score by apply convertedStories_scored.
  unfold convertedStories.
  rewrite (sort_stable _ scored score_key by_score_desc_key) by apply retained_scored.
  symmetry. apply filter_has_score, retained_scored.
Qed.

(** X2: every story of the output has a title, and it is not empty. *)
Theorem output_titles_nonempty (hits : list AlgoliaStory.t) (d : HNStory.t) :
  In d (convertedStories hits) ->
  exists t, HNStory.title d = Some t /\ t <> "".
Proof.
  intros Hin. apply convertedStories_In in Hin as (story & _ & Hk & ->).
  apply has_title_and_points_true in Hk as [Ht _]. exact Ht.
Qed.

Lemma output_titles_nonempty_witness :
  exists t, HNStory.title (toHNStory unnumbered) = Some t /\ t <> "".
Proof.
  apply (output_titles_nonempty [unnumbered] (toHNStory unnumbered)).
  left. reflexivity.
Defined.

(** X3: the output has one story for each hit that passes the filter, so never
    more stories than hits. *)
Theorem output_length (hits : list AlgoliaStory.t) :
  length (convertedStories hits)
  = length (List.filter has_title_and_points hits)
  /\ (length (convertedStories hits) <= length hits)%nat.
Proof.
  assert (E : length (convertedStories hits)
              = length (List.filter has_title_and_points hits)).
  { rewrite (Permutation_length (convertedStories_perm hits)).
    apply List.length_map. }
  split; [exact E|]. rewrite E. apply List.filter_length_le.
Qed.

Lemma Permutation_List_filter {A} (p : A -> bool) l l' :
  Permutation l l' -> Permutation (List.filter p l) (List.filter p l').
Proof.
  induction 1 as [|x l l' _ IH|x y l|l1 l2 l3 _ IH1 _ IH2]; cbn.
  - constructor.
  - destruct (p x); [now constructor | exact IH].
  - destruct (p x), (p y); try reflexivity. apply perm_swap.
  - now transitivity (List.filter p l2).
Qed.

Lemma filter_distinct_keys {A B} `{EqDecision B} (f : A -> B) (k : B) l :
  List.NoDup (List.map f l) ->
  (length (List.filter (fun a => bool_decide (f a = k)) l) <= 1)%nat.
Proof.
  induction l as [|a l IH]; cbn; [lia|].
  intros Hnd. inversion Hnd as [|? ? Hnotin Hnd']; subst.
  specialize (IH Hnd'). case_bool_decide as Ha; cbn; [|exact IH].
  assert (E : List.filter (fun a0 => bool_decide (f a0 = k)) l = []).
  { destruct (List.filter _ l) as [|b r] eqn:F; [reflexivity|].
    assert (Hb : In b (List.filter (fun a0 => bool_decide (f a0 = k)) l))
      by (rewrite F; now left).
    apply filter_In in Hb as [Hb1 Hb2]. apply bool_decide_eq_true in Hb2.
    exfalso. apply Hnotin. rewrite Ha, <- Hb2. now apply in_map. }
  rewrite E. cbn. lia.
Qed.

Lemma Permutation_short_eq {A} (l l' : list A) :
  (length l <= 1)%nat -> Permutation l l' -> l' = l.
Proof.
  intros Hlen Hp. destruct l as [|a [|b l]]; cbn in Hlen; [| |lia].
  - now apply Permutation_nil.
  - now apply Permutation_length_1_inv.
Qed.

(** X4: when the retained hits have pairwise different points, the order in
    which the API returns the hits does not matter. *)
Theorem order_of_hits_irrelevant (hits hits' : list AlgoliaStory.t) :
  Permutation hits hits' ->
  List.NoDup (List.map AlgoliaStory.points (List.filter has_title_and_points hits)) ->
  convertedStories hits' = convertedStories hits.
Proof.
  intros Hp Hnd. apply convertedStories_unique.
  - apply convertedStories_scored.
  - apply convertedStories_sorted.
  - intros k. rewrite convertedStories_stable.
    rewrite !filter_map_comm. f_equal.
    apply Permutation_short_eq.
    + apply (filter_distinct_keys AlgoliaStory.points (Some k)), Hnd.
    + apply Permutation_List_filter, Permutation_List_filter, Hp.
Qed.

Lemma order_of_hits_irrelevant_witness :
  convertedStories [unnumbered; downvoted] = convertedStories [downvoted; unnumbered].
Proof.
  apply (order_of_hits_irrelevant [downvoted; unnumbered] [unnumbered; downvoted]).
  - apply perm_swap.
  - cbn. repeat constructor; cbn; intuition discriminate.
Defined.

(** ** The entries of the list *)

Lemma StronglySorted_lookup {A} (R : A -> A -> Prop) (l : list A) i j a b :
  StronglySorted R l -> (i < j)%nat ->
  l !! i = Some a -> l !! j = Some b -> R a b.
Proof.
  intros Hs. revert i j. induction Hs as [|x l Hs IH Hx]; intros i j Hij Hi Hj.
  - discriminate.
  - destruct j as [|j]; [lia|]. cbn in Hj. destruct i as [|i].
    + cbn in Hi. injection Hi as <-.
      rewrite List.Forall_forall in Hx. apply Hx.
      apply list_elem_of_In. eapply list_elem_of_lookup_2. exact Hj.
    + cbn in Hi. apply (IH i j); [lia|assumption..].
Qed.

(** X5: the entries of the fetched list carry the ranks 1, 2, 3, ... in order,
    and an entry of a smaller rank never shows a smaller score. *)
Theorem ranks_follow_scores
    (URL_hostname : string -> option string) (Date_now : Z)
    (hits : list AlgoliaStory.t) (i j : nat) (a b : StoryItem) :
  let items := story_items URL_hostname Date_now (convertedStories hits) in
  (i < j)%nat -> items !! i = Some a -> items !! j = Some b ->
  rank a = Z.of_nat i + 1 /\ rank b = Z.of_nat j + 1
  /\ exists x y, shown_score a = Some x /\ shown_score b = Some y /\ y <= x.
Proof.
  cbv zeta. unfold story_items. rewrite !list_lookup_imap. intros Hij Hi Hj.
  destruct (convertedStories hits !! i) as [da|] eqn:Ei; [|discriminate].
  destruct (convertedStories hits !! j) as [db|] eqn:Ej; [|discriminate].
  cbn in Hi, Hj. injection Hi as <-. injection Hj as <-.
  split; [reflexivity|]. split; [reflexivity|].
  exact (StronglySorted_lookup _ _ _ _ _ _ (convertedStories_sorted hits) Hij Ei Ej).
Qed.

Lemma ranks_follow_scores_witness :
  exists a b,
    rank a = 1 /\ rank b = 2
    /\ exists x y, shown_score a = Some x /\ shown_score b = Some y /\ y <= x.
Proof.
  eexists _, _.
  refine (ranks_follow_scores SimpleURL.hostname 1700000000000
            [downvoted; unnumbered] 0 1 _ _ _ _ _).
  - lia.
  - reflexivity.
  - reflexivity.
Defined.

(** X6: an entry shows a domain only beside the external-link glyph, its title
    then links to the story's own URL and the domain is not empty; without
    a usable URL the title links to the discussion page and no domain is
    shown. *)
Theorem entry_link_and_domain
    (URL_hostname : string -> option string) (Date_now : Z)
    (index : nat) (story : HNStory.t) :
  let entry := story_item URL_hostname Date_now index story in
  (forall d, shown_domain entry = Some d ->
     external_link entry = true
     /\ HNStory.url story = Some (href entry) /\ d <> "")
  /\ (external_link entry = false ->
      href entry = discussion_url (HNStory.id story)
      /\ shown_domain entry = None).
Proof.
  cbv zeta. unfold story_item. cbn [shown_domain external_link href].
  unfold getDomain. destruct (HNStory.url story) as [u|]; cbn.
  - destruct (String.eqb_spec u "") as [->|Hu]; cbn.
    + split; [discriminate | auto].
    + split; [|discriminate].
      destruct (URL_hostname u) as [h|]; cbn; [|discriminate].
      destruct (String.eqb_spec (replace "www." "" h) "") as [E|E]; cbn;
        [discriminate|].
      intros d [= <-]. auto.
  - split; [discriminate | auto].
Qed.

Lemma entry_link_and_domain_witness :
  external_link
    (story_item SimpleURL.hostname 1700000000000 0 (toHNStory downvoted)) = false
  /\ href (story_item SimpleURL.hostname 1700000000000 0 (toHNStory downvoted))
     = "https://news.ycombinator.com/item?id=41000001".
Proof.
  split; [reflexivity|].
  refine (proj1 (proj2
    (entry_link_and_domain SimpleURL.hostname 1700000000000 0 (toHNStory downvoted))
    _)).
  reflexivity.
Defined.

(** ** More on [getDomain] *)

Lemma append_String c (s t : string) : String c s +:+ t = String c (s +:+ t).
Proof. reflexivity. Qed.

Lemma length_append (s t : string) :
  String.length (s +:+ t) = (String.length s + String.length t)%nat.
Proof. induction s as [|c s IH]; [reflexivity|]. rewrite append_String. cbn. now rewrite IH. Qed.

Lemma append_assoc (s t u : string) : (s +:+ t) +:+ u = s +:+ (t +:+ u).
Proof. induction s as [|c s IH]; [reflexivity|]. rewrite !append_String. now rewrite IH. Qed.

Lemma prefix_split (p s : string) :
  String.prefix p s = true -> exists rest, s = p +:+ rest.
Proof.
  revert s. induction p as [|c p IH]; intros s H.
  - exists s. reflexivity.
  - destruct s as [|c' s]; [discriminate|]. cbn in H.
    destruct (ascii_dec c c') as [<-|]; [|discriminate].
    destruct (IH s H) as [rest ->]. exists rest. reflexivity.
Qed.

Lemma prefix_append (p rest : string) : String.prefix p (p +:+ rest) = true.
Proof.
  induction p as [|c p IH]; [now destruct rest|].
  rewrite append_String. cbn. destruct (ascii_dec c c); [exact IH | contradiction].
Qed.

Lemma substring_after (p rest : string) :
  String.substring (String.length p)
    (String.length (p +:+ rest) - String.length p) (p +:+ rest) = rest.
Proof.
  rewrite length_append.
  replace (String.length p + String.length rest - String.length p)%nat
    with (String.length rest) by lia.
  induction p as [|c p IH]; [apply substring_all|].
  rewrite append_String. cbn. exact IH.
Qed.

(** [replace] leaves alone a string in which the searched text does not
    occur. *)
Lemma replace_absent (pat rep s : string) :
  (forall a b, s <> a +:+ pat +:+ b) -> replace pat rep s = s.
Proof.
  induction s as [|c s IH]; intros Habs.
  - cbn [replace]. destruct (String.prefix pat "") eqn:E; [|reflexivity].
    apply prefix_split in E as [rest E]. exfalso. apply (Habs "" rest). exact E.
  - cbn [replace]. destruct (String.prefix pat (String c s)) eqn:E.
    + apply prefix_split in E as [rest E]. exfalso. apply (Habs "" rest). exact E.
    + f_equal. apply IH. intros a b ->. apply (Habs (String c a) b). reflexivity.
Qed.

(** [replace] rewrites the first place where the searched text stands. *)
Lemma replace_first (pat rep a b : string) :
  (forall a1 a2, a = a1 +:+ a2 -> a2 <> "" ->
     String.prefix pat (a2 +:+ pat +:+ b) = false) ->
  replace pat rep (a +:+ pat +:+ b) = a +:+ rep +:+ b.
Proof.
  induction a as [|c a IH]; intros Hfirst.
  - change ("" +:+ ?x) with x.
    destruct (pat +:+ b) as [|c s] eqn:E.
    + destruct pat; [|discriminate]. change ("" +:+ b) with b in E.
      subst b. reflexivity.
    + cbn [replace]. rewrite <- E, prefix_append, substring_after. reflexivity.
  - rewrite !append_String. cbn [replace].
    rewrite <- append_String, (Hfirst "" (String c a) eq_refl) by discriminate.
    f_equal. apply IH. intros a1 a2 -> Ha2.
    apply (Hfirst (String c a1) a2); [reflexivity | exact Ha2].
Qed.

(** X7: a hostname in which "www." does not occur is returned as it is. *)
Theorem getDomain_keeps_other_hostnames
    (URL_hostname : string -> option string) (u hostname : string) :
  u <> "" ->
  URL_hostname u = Some hostname ->
  (forall a b, hostname <> a +:+ "www." +:+ b) ->
  getDomain URL_hostname (Some u) = Some hostname.
Proof.
  intros Hu Hh Habs. rewrite (getDomain_parsed _ _ _ Hu Hh).
  now rewrite replace_absent.
Qed.

(** X8: a hostname of the shape [a ++ "www." ++ b], in which "www." does not
    stand earlier, is returned as [a ++ b], whatever [a] is. *)
Theorem getDomain_removes_first_www
    (URL_hostname : string -> option string) (u a b : string) :
  u <> "" ->
  URL_hostname u = Some (a +:+ "www." +:+ b) ->
  (forall a1 a2, a = a1 +:+ a2 -> a2 <> "" ->
     String.prefix "www." (a2 +:+ "www." +:+ b) = false) ->
  getDomain URL_hostname (Some u) = Some (a +:+ b).
Proof.
  intros Hu Hh Hfirst. rewrite (getDomain_parsed _ _ _ Hu Hh).
  now rewrite (replace_first "www." "" a b Hfirst).
Qed.

Lemma occurs_false (pat s : string) :
  occurs pat s = false -> forall a b, s <> a +:+ pat +:+ b.
Proof.
  induction s as [|c s IH]; intros H a b E.
  - destruct a; [|discriminate]. change ("" +:+ ?x) with x in E.
    cbn [occurs] in H. apply orb_false_iff in H as [H _].
    rewrite E, prefix_append in H. discriminate.
  - cbn [occurs] in H. apply orb_false_iff in H as [H1 H2].
    destruct a as [|c' a].
    + change ("" +:+ ?x) with x in E. rewrite E, prefix_append in H1. discriminate.
    + rewrite append_String in E. injection E as -> E. exact (IH H2 a b E).
Qed.

Lemma getDomain_keeps_other_hostnames_witness :
  getDomain SimpleURL.hostname (Some "https://news.example.org/reading")
  = Some "news.example.org".
Proof.
  apply (getDomain_keeps_other_hostnames SimpleURL.hostname
           "https://news.example.org/reading" "news.example.org").
  - discriminate.
  - reflexivity.
  - apply occurs_false. reflexivity.
Defined.

Lemma getDomain_removes_first_www_witness :
  getDomain SimpleURL.hostname (Some "https://api.www.example.com/x")
  = Some ("api." +:+ "example.com").
Proof.
  apply (getDomain_removes_first_www SimpleURL.hostname
           "https://api.www.example.com/x" "api." "example.com").
  - discriminate.
  - reflexivity.
  - intros a1 a2 E Hne.
    destruct a1 as [|c1 [|c2 [|c3 [|c4 a1]]]];
      rewrite ?append_String in E; change ("" +:+ a2) with a2 in E;
      simplify_eq; try reflexivity.
    destruct a1; [|discriminate]. change ("" +:+ a2) with a2 in *.
    congruence.
Defined.

(** ** What is rendered after the fetch *)





(** X10: a failed flow leaves the stories as they were; and when the flow runs
    again, its outcome replaces the earlier one: the error and the loading
    flag are those of the later run alone, a later success gives the same
    state as a first success, and a later failure keeps the stories of the
    earlier run. *)
Theorem refetch_replaces_outcome
    (TypeError_message : payload -> string)
    (net1 net2 : fetch_outcome) (st : AppState) :
  let first := fetchTopStories TypeError_message net1 st in
  let once := fetchTopStories TypeError_message net2 st in
  let twice := fetchTopStories TypeError_message net2 first in
  error twice = error once
  /\ loading twice = false
  /\ (is_Some (error once) -> stories once = stories st)
  /\ (error once = None -> twice = once)
  /\ (is_Some (error once) -> stories twice = stories first).
Proof.
  cbv zeta. unfold fetchTopStories.
  destruct (try_block TypeError_message net2) as [err|converted],
           (try_block TypeError_message net1) as [err1|converted1]; cbn;
    repeat split; try reflexivity; try (intros; reflexivity);
    try (intros; discriminate); intros [? H]; discriminate H.
Qed.

Lemma refetch_replaces_outcome_witness :
  let first := fetchTopStories (fun _ => "TypeError")
                 (FetchRejects NotAnError) initialState in
  let once := fetchTopStories (fun _ => "TypeError")
                (FetchResolves true (JsonResolves (DataHits [Some downvoted])))
                initialState in
  fetchTopStories (fun _ => "TypeError")
    (FetchResolves true (JsonResolves (DataHits [Some downvoted]))) first = once.
Proof.
  cbv zeta.
  refine (proj1 (proj2 (proj2 (proj2
    (refetch_replaces_outcome (fun _ => "TypeError") (FetchRejects NotAnError)
       (FetchResolves true (JsonResolves (DataHits [Some downvoted])))
       initialState)))) _).
  reflexivity.
Defined.

(** ** More on [formatTime] *)

Lemma append_inj_length (s1 s2 t1 t2 : string) :
  s1 +:+ t1 = s2 +:+ t2 -> String.length t1 = String.length t2 ->
  s1 = s2 /\ t1 = t2.
Proof.
  revert s2. induction s1 as [|c s1 IH]; intros [|c' s2] E Hlen.
  - auto.
  - exfalso. apply (f_equal String.length) in E.
    rewrite !length_append in E. cbn in E. lia.
  - exfalso. apply (f_equal String.length) in E.
    rewrite !length_append in E. cbn in E. lia.
  - rewrite !append_String in E. injection E as -> E.
    destruct (IH s2 E Hlen) as [-> ->]. auto.
Qed.

Lemma NumberToString_inj (a b : Z) : NumberToString a = NumberToString b -> a = b.
Proof. unfold NumberToString. apply (inj pretty). Qed.

(** The whole hours shown for a story that passed the numeric filter of a
    request sent at [fetched_at], when the list is drawn at [rendered_at]. *)
Lemma hours_within_window (fetched_at rendered_at created_at_i : Z) :
  threeMonthsAgo fetched_at < created_at_i ->
  rendered_at - fetched_at <= 86400000 ->
  Qfloor (elapsed rendered_at (inject_Z created_at_i) / 3600) < 2184.
Proof.
  intros Hnew Hsoon. unfold threeMonthsAgo in Hnew.
  set (q := Qfloor (inject_Z fetched_at / 1000)) in *.
  pose proof (Qlt_floor (inject_Z fetched_at / 1000)) as Hq. fold q in Hq.
  rewrite inject_Z_plus in Hq.
  assert (Hc : (inject_Z q - 7776000 + 1 <= inject_Z created_at_i)%Q).
  { assert (HZ : q + - (7776000) + 1 <= created_at_i) by lia.
    rewrite Zle_Qle, !inject_Z_plus, inject_Z_opp in HZ. exact HZ. }
  assert (Hr : (inject_Z rendered_at - inject_Z fetched_at <= 86400000)%Q).
  { unfold Z.sub in Hsoon.
    rewrite Zle_Qle, inject_Z_plus, inject_Z_opp in Hsoon. exact Hsoon. }
  assert (Hlt : (elapsed rendered_at (inject_Z created_at_i) / 3600 < 2184)%Q).
  { apply Qlt_shift_div_r; [reflexivity|]. unfold elapsed.
    change (inject_Z 1) with 1%Q in Hq.
    unfold Qdiv in *. change (/ 1000)%Q with (1 # 1000)%Q in *. lra. }
  rewrite Zlt_Qlt. eapply Qle_lt_trans; [apply Qfloor_le | exact Hlt].
Qed.

(** X11: a story that passed the numeric filter of the request is shown, when
    the list is drawn within a day of the request, with one of the texts
    up to "90 days ago". *)
Theorem listed_story_age (fetched_at rendered_at created_at_i : Z) :
  threeMonthsAgo fetched_at < created_at_i ->
  rendered_at - fetched_at <= 86400000 ->
  let text := formatTime rendered_at (inject_Z created_at_i) in
  text = "just now" \/ text = "1 hour ago"
  \/ (exists N, 2 <= N <= 23 /\ text = NumberToString N +:+ " hours ago")
  \/ text = "1 day ago"
  \/ (exists D, 2 <= D <= 90 /\ text = NumberToString D +:+ " days ago").
Proof.
  intros Hnew Hsoon. cbv zeta.
  pose proof (hours_within_window _ _ _ Hnew Hsoon) as Hh.
  rewrite formatTime_text. unfold text_for_hours.
  set (N := Qfloor _) in *. clearbody N. clear Hnew Hsoon.
  destruct (Z.ltb_spec N 1); [auto|].
  destruct (Z.eqb_spec N 1); [auto|].
  destruct (Z.ltb_spec N 24);
    [right; right; left; exists N; split; [lia|reflexivity]|].
  destruct (Z.ltb_spec N 48); [auto|].
  do 4 right. exists (N / 24). split; [|reflexivity].
  split; [apply Z.div_le_lower_bound; lia|].
  assert (N / 24 < 91) by (apply Z.div_lt_upper_bound; lia). lia.
Qed.

Lemma listed_story_age_witness :
  let text := formatTime 1700000600000 (inject_Z 1692224001) in
  text = "just now" \/ text = "1 hour ago"
  \/ (exists N, 2 <= N <= 23 /\ text = NumberToString N +:+ " hours ago")
  \/ text = "1 day ago"
  \/ (exists D, 2 <= D <= 90 /\ text = NumberToString D +:+ " days ago").
Proof.
  apply (listed_story_age 1700000000000 1700000600000 1692224001).
  - reflexivity.
  - discriminate.
Defined.

(** X12: the count shown before "hours ago" is between 2 and 23 and the count
    shown before "days ago" is at least 2: no singular, zero or negative
    count is written with a plural noun. *)
Theorem formatTime_counts (Date_now : Z) (timestamp : Q) (k : Z) :
  (formatTime Date_now timestamp = NumberToString k +:+ " hours ago" -> 2 <= k <= 23)
  /\ (formatTime Date_now timestamp = NumberToString k +:+ " days ago" -> 2 <= k).
Proof.
  rewrite formatTime_text. unfold text_for_hours.
  set (N := Qfloor _). clearbody N.
  assert (Hlen : forall (s : string) (m : nat) suffix,
             s = NumberToString k +:+ suffix ->
             String.length s = (m + String.length suffix)%nat ->
             String.length (NumberToString k) = m).
  { intros s m suffix -> H. rewrite length_append in H. lia. }
  destruct (Z.ltb_spec N 1) as [H1|H1];
    [|destruct (Z.eqb_spec N 1) as [H2|H2];
      [|destruct (Z.ltb_spec N 24) as [H3|H3];
        [|destruct (Z.ltb_spec N 48) as [H4|H4]]]].
  - split; intros E; apply (f_equal String.length) in E;
      rewrite length_append in E; cbn in E; lia.
  - split; intros E.
    + pose proof (Hlen _ 0%nat _ E eq_refl) as L.
      destruct (NumberToString k); [discriminate E | discriminate L].
    + pose proof (Hlen _ 1%nat _ E eq_refl) as L.
      destruct (NumberToString k) as [|c [|c' r]]; try discriminate L.
      discriminate E.
  - split; intros E.
    + apply append_inj_length in E as [E _]; [|reflexivity].
      apply NumberToString_inj in E. lia.
    + change " hours ago" with (" " +:+ "hours ago") in E.
      rewrite <- append_assoc in E.
      apply append_inj_length in E as [_ E]; [discriminate E | reflexivity].
  - split; intros E.
    + apply (f_equal String.length) in E.
      rewrite length_append in E. cbn in E. lia.
    + pose proof (Hlen _ 0%nat _ E eq_refl) as L.
      destruct (NumberToString k); [discriminate E | discriminate L].
  - split; intros E.
    + change " hours ago" with (" " +:+ "hours ago") in E.
      rewrite <- append_assoc in E.
      apply append_inj_length in E as [_ E]; [discriminate E | reflexivity].
    + apply append_inj_length in E as [E _]; [|reflexivity].
      apply NumberToString_inj in E. subst k.
      apply Z.div_le_lower_bound; lia.
Qed.

Lemma formatTime_counts_witness : 2 <= 2 <= 23.
Proof.
  refine (proj1 (formatTime_counts 1700000000000 (inject_Z 1699990000) 2) _).
  reflexivity.
Defined.

(** ** More on the CVD preference *)

Lemma Browser_eq (b1 b2 : Browser) :
  body_attributes b1 = body_attributes b2 ->
  localStorage b1 = localStorage b2 -> b1 = b2.
Proof. destruct b1, b2. cbn. now intros -> ->. Qed.

(** X13: running the startup code again changes nothing. *)
Theorem startup_idempotent (params : list (string * string)) (b : Browser) :
  startup params (startup params b) = startup params b.
Proof.
  destruct (URLSearchParams_get "cvd" params) as [v|] eqn:Ep;
    [destruct (is_cvd_mode v) eqn:Ev|].
  - assert (E : forall b0, startup params b0
                = setItem "cvd-preference" v (setAttribute "data-cvd" v b0))
      by (intros b0; unfold startup; now rewrite Ep, Ev).
    rewrite !E. apply Browser_eq; cbn; apply insert_insert_eq.
  - assert (Hno : no_mode_in (URLSearchParams_get "cvd" params)).
    { intros v' Hv'. rewrite Ep in Hv'. injection Hv' as <-.
      now apply is_cvd_mode_false. }
    rewrite !(startup_without_param _ _ Hno). unfold getItem.
    destruct (localStorage b !! "cvd-preference") as [stored|] eqn:Es;
      [destruct (is_cvd_mode stored) eqn:Em|].
    + cbn. rewrite Es, Em. apply Browser_eq; cbn;
        [apply insert_insert_eq | reflexivity].
    + now rewrite Es, Em.
    + now rewrite Es.
  - assert (Hno : no_mode_in (URLSearchParams_get "cvd" params)).
    { intros v' Hv'. rewrite Ep in Hv'. discriminate Hv'. }
    rewrite !(startup_without_param _ _ Hno). unfold getItem.
    destruct (localStorage b !! "cvd-preference") as [stored|] eqn:Es;
      [destruct (is_cvd_mode stored) eqn:Em|].
    + cbn. rewrite Es, Em. apply Browser_eq; cbn;
        [apply insert_insert_eq | reflexivity].
    + now rewrite Es, Em.
    + now rewrite Es.
Qed.

(** X14: only the last choice counts: a change of the mode wipes out what the
    change before it did. *)
Theorem handleCvdChange_last_wins (mode1 mode2 : option string) (st : CvdState) :
  handleCvdChange mode2 (handleCvdChange mode1 st) = handleCvdChange mode2 st.
Proof.
  unfold handleCvdChange, truthy_string. cbn [browser cvdMode]. f_equal.
  destruct mode2 as [m2|]; [destruct (String.eqb m2 "")|];
    (destruct mode1 as [m1|]; [destruct (String.eqb m1 "")|]);
    cbn; apply Browser_eq; cbn;
    rewrite ?insert_insert_eq, ?insert_delete_eq, ?delete_insert_eq,
            ?delete_delete_eq; reflexivity.
Qed.

(** X15: on a page whose body has no [data-cvd] attribute yet, an attribute set
    by the startup code is one of the two modes, the storage holds the same
    mode, and the selector of the component starts on it. *)
Theorem startup_attribute_is_stored_mode
    (params : list (string * string)) (b : Browser) (m : string) :
  body_attributes b !! "data-cvd" = None ->
  body_attributes (startup params b) !! "data-cvd" = Some m ->
  (m = "protanopia" \/ m = "deuteranopia")
  /\ localStorage (startup params b) !! "cvd-preference" = Some m
  /\ select_value (initialCvdState (startup params b)) = m.
Proof.
  intros Hfresh Hattr.
  assert (H : is_cvd_mode m = true
              /\ localStorage (startup params b) !! "cvd-preference" = Some m).
  { revert Hattr. unfold startup, getItem.
    destruct (URLSearchParams_get "cvd" params) as [v|];
      [destruct (is_cvd_mode v) eqn:Ev|];
      try (destruct (localStorage b !! "cvd-preference") as [stored|] eqn:Es;
           [destruct (is_cvd_mode stored) eqn:Em|]);
      cbn; rewrite ?lookup_insert_eq; intros Hattr; try congruence;
      injection Hattr as <-; auto. }
  destruct H as [Hm Hst]. split; [now apply is_cvd_mode_true|].
  split; [exact Hst|].
  unfold select_value, initialCvdState, getItem. cbn [cvdMode browser].
  rewrite Hst. cbn.
  apply is_cvd_mode_true in Hm as [->| ->]; reflexivity.
Qed.

Lemma startup_attribute_is_stored_mode_witness :
  ("deuteranopia" = "protanopia" \/ "deuteranopia" = "deuteranopia")
  /\ localStorage (startup [] returning_visitor) !! "cvd-preference"
     = Some "deuteranopia"
  /\ select_value (initialCvdState (startup [] returning_visitor)) = "deuteranopia".
Proof.
  apply (startup_attribute_is_stored_mode [] returning_visitor "deuteranopia").
  - reflexivity.
  - reflexivity.
Defined.

(** X16: a choice made with the selector survives a reload: on a page with the
    storage the toggle left and no mode in the query string, the startup
    code sets the attribute to a chosen mode that is one of the two, and
    leaves the page alone after "Default" or any other value. *)
Theorem preference_survives_reload
    (mode : option string) (st : CvdState)
    (attributes : gmap string string) (params : list (string * string)) :
  let reloaded :=
    {| body_attributes := attributes;
       localStorage := localStorage (browser (handleCvdChange mode st)) |} in
  no_mode_in (URLSearchParams_get "cvd" params) ->
  (forall m, mode = Some m -> m = "protanopia" \/ m = "deuteranopia" ->
     body_attributes (startup params reloaded) !! "data-cvd" = Some m
     /\ localStorage (startup params reloaded) = localStorage reloaded)
  /\ ((forall m, mode = Some m -> m <> "protanopia" /\ m <> "deuteranopia") ->
      startup params reloaded = reloaded).
Proof.
  cbv zeta. intros Hno. rewrite (startup_without_param _ _ Hno).
  unfold getItem, handleCvdChange, truthy_string. cbn [localStorage browser].
  split.
  - intros m -> Hm.
    assert (Hne : String.eqb m "" = false) by (destruct Hm as [->| ->]; reflexivity).
    rewrite Hne. cbn. rewrite lookup_insert_eq.
    rewrite (proj2 (is_cvd_mode_true m) Hm). cbn.
    split; [apply lookup_insert_eq | reflexivity].
  - intros Hother. destruct mode as [m|].
    + destruct (String.eqb m ""); cbn.
      * now rewrite lookup_delete_eq.
      * rewrite lookup_insert_eq.
        now rewrite (proj2 (is_cvd_mode_false m) (Hother m eq_refl)).
    + cbn. now rewrite lookup_delete_eq.
Qed.

Lemma preference_survives_reload_witness :
  body_attributes
    (startup []
       {| body_attributes := ∅;
          localStorage :=
            localStorage (browser (handleCvdChange (Some "protanopia")
                                     (initialCvdState returning_visitor))) |})
    !! "data-cvd" = Some "protanopia".
Proof.
  refine (proj1 (proj1
    (preference_survives_reload (Some "protanopia")
       (initialCvdState returning_visitor) ∅ [] _) "protanopia" _ _)).
  - intros v Hv. discriminate Hv.
  - reflexivity.
  - left. reflexivity.
Defined.

(** X17: after a change made with the selector, the selector shows the chosen
    value, and the attribute and the stored preference are both that value,
    or both absent for the empty value of "Default". *)
Theorem selector_shows_choice (value : string) (st : CvdState) :
  let st' := onChange value st in
  select_value st' = value
  /\ body_attributes (browser st') !! "data-cvd"
     = (if String.eqb value "" then None else Some value)
  /\ localStorage (browser st') !! "cvd-preference"
     = (if String.eqb value "" then None else Some value).
Proof.
  cbv zeta. unfold onChange, select_value, handleCvdChange, truthy_string.
  destruct (String.eqb_spec value "") as [->|Hne]; cbn.
  - repeat split; apply lookup_delete_eq.
  - destruct (String.eqb_spec value ""); [contradiction|]. cbn.
    repeat split; apply lookup_insert_eq.
Qed.

(** ** The request *)

(** X18: the lower bound sent to the API is a whole number of seconds, at most
    one second earlier than ninety days before the current time. *)
Theorem threeMonthsAgo_bounds (Date_now : Z) :
  (inject_Z (threeMonthsAgo Date_now) <= inject_Z Date_now / 1000 - 7776000)%Q
  /\ (inject_Z Date_now / 1000 - 7776000 < inject_Z (threeMonthsAgo Date_now) + 1)%Q.
Proof.
  unfold threeMonthsAgo. change (90 * 24 * 60 * 60) with 7776000.
  unfold Z.sub. rewrite inject_Z_plus, inject_Z_opp.
  change (inject_Z 7776000) with 7776000%Q.
  pose proof (Qfloor_le (inject_Z Date_now / 1000)) as Hle.
  pose proof (Qlt_floor (inject_Z Date_now / 1000)) as Hlt.
  rewrite inject_Z_plus in Hlt. change (inject_Z 1) with 1%Q in Hlt.
  set (now := (inject_Z Date_now / 1000)%Q) in *.
  set (q := inject_Z (Qfloor now)) in *.
  split; lra.
Qed.
